(** * Task client: the react-query hooks and the list components

    A shallow embedding of [reactQueryCustomHooks] ([useFetchTasks],
    [useCreateTask], [useEditTask], [useDeleteTask]), of [Items.jsx] and of
    [SingleItem.jsx], and of the [Form] component the README gives, over an
    explicit state holding the query cache, the displayed notifications and
    the log of HTTP requests. *)

From stdpp Require Import gmap strings list pretty.

Set Warnings "-register-all".

Open Scope string_scope.
Open Scope list_scope.

(** ** JavaScript values *)

(** The values the client handles: JSON payloads plus [undefined].
    Numbers are the integers of magnitude at most 2^53, the range in which
    every integer is a JavaScript number and prints as its decimal digits;
    an object is the list of its own properties, looked up by name. *)
Inductive JsVal : Type :=
  | JUndefined
  | JNull
  | JBool (b : bool)
  | JNum (n : Z)
  | JStr (s : string)
  | JArr (items : list JsVal)
  | JObj (fields : list (string * JsVal)).

(** What a JavaScript evaluation can raise here. *)
Inductive Exn : Type :=
  | TypeError.

(** The result of evaluating an expression: a value or a raised exception. *)
Inductive Outcome (A : Type) : Type :=
  | Ok (a : A)
  | Throw (e : Exn).
Arguments Ok {A} a.
Arguments Throw {A} e.

#[global] Instance Outcome_ret : MRet Outcome := fun A a => Ok a.
#[global] Instance Outcome_bind : MBind Outcome := fun A B f m =>
  match m with
  | Ok a => f a
  | Throw e => Throw e
  end.

Fixpoint assoc (k : string) (fields : list (string * JsVal)) : option JsVal :=
  match fields with
  | [] => None
  | (k', v) :: rest => if String.eqb k k' then Some v else assoc k rest
  end.

(** [v.k]: reading a property of [undefined] or [null] raises a TypeError;
    an object gives the property or [undefined]; any other receiver gives
    [undefined] (true of every name the sources read: none is [length], an
    index or a method). *)
Definition prop (v : JsVal) (k : string) : Outcome JsVal :=
  match v with
  | JUndefined | JNull => Throw TypeError
  | JObj fields => Ok (default JUndefined (assoc k fields))
  | _ => Ok JUndefined
  end.

(** ToBoolean. *)
Definition truthy (v : JsVal) : bool :=
  match v with
  | JUndefined | JNull => false
  | JBool b => b
  | JNum n => negb (n =? 0)%Z
  | JStr s => negb (String.eqb s "")
  | JArr _ | JObj _ => true
  end.

(** [!v] *)
Definition js_not (v : JsVal) : JsVal := JBool (negb (truthy v)).

(** [a && b] *)
Definition js_and (a b : JsVal) : JsVal := if truthy a then b else a.

Definition join (sep : string) (parts : list string) : string :=
  match parts with
  | [] => ""
  | p :: ps => fold_left (fun acc q => acc +:+ sep +:+ q) ps p
  end.

(** ToString, as a template literal or a concatenation with a string applies
    it. An object of a payload has no function among its properties, so one
    with a property named [toString] of its own cannot be converted and the
    conversion raises; any other object prints as [[object Object]]. An
    array joins its elements, [undefined] and [null] printing as nothing. *)
Fixpoint to_string (v : JsVal) : Outcome string :=
  match v with
  | JUndefined => Ok "undefined"
  | JNull => Ok "null"
  | JBool true => Ok "true"
  | JBool false => Ok "false"
  | JNum n => Ok (pretty n)
  | JStr s => Ok s
  | JArr items =>
      parts ← mapM (fun x => match x with
                             | JUndefined | JNull => Ok ""
                             | _ => to_string x
                             end) items;
      Ok (join "," parts)
  | JObj fields =>
      match assoc "toString" fields with
      | Some _ => Throw TypeError
      | None => Ok "[object Object]"
      end
  end.

(** ** State and effects *)

Inductive Method : Type := GET | POST | PATCH | DELETE.

(** A request handed to the HTTP client: verb, path relative to the base
    address, and body ([undefined] when the call passes none). *)
Record Request : Type := mkRequest {
  req_method : Method;
  req_url : string;
  req_body : JsVal
}.

(** A notification shown through [toast]. *)
Inductive Toast : Type :=
  | ToastSuccess (content : JsVal)
  | ToastError (content : JsVal).

Inductive QueryStatus : Type := QLoading | QError | QSuccess.

(** One entry of the query cache. *)
Record Query : Type := mkQuery {
  q_status : QueryStatus;
  q_data : JsVal;
  q_isInvalidated : bool
}.

Abbreviation QueryKey := (list string).
Abbreviation QueryCache := (gmap (list string) Query).

(** Everything the hooks and components read or change. *)
Record World : Type := mkWorld {
  cache : QueryCache;
  toasts : list Toast;
  sent : list Request
}.

(** Effectful code: the state is threaded, and survives a raised exception. *)
Definition M (A : Type) : Type := World -> Outcome A * World.

#[global] Instance M_ret : MRet M := fun A a w => (Ok a, w).
#[global] Instance M_bind : MBind M := fun A B f m w =>
  match m w with
  | (Ok a, w') => f a w'
  | (Throw e, w') => (Throw e, w')
  end.

Definition lift {A} (o : Outcome A) : M A := fun w => (o, w).

(** Runs [m] and hands back its outcome instead of propagating a throw. *)
Definition attempt {A} (m : M A) : M (Outcome A) := fun w =>
  let '(o, w') := m w in (Ok o, w').

Definition exec {A} (m : M A) (w : World) : World := snd (m w).
Definition outcome {A} (m : M A) (w : World) : Outcome A := fst (m w).

(** ** The HTTP client wrapper *)

(** Modelled from the spec: [utils.js], which exports [customFetch], is not
    among the sources. The wrapper is bound to a fixed base address and sends
    GET, POST, PATCH and DELETE against relative paths, with no retry, timeout
    or authentication; a call only hands one request to the network. *)
Definition customFetch (m : Method) (url : string) (body : JsVal) : M () := fun w =>
  (Ok (), mkWorld (cache w) (toasts w) (sent w ++ [mkRequest m url body])).

(** What comes back for a request: a response with a status and a parsed
    body, or nothing at all (a transport-level failure). *)
Inductive NetResult : Type :=
  | Reply (status : Z) (body : JsVal)
  | NoReply.

(** How a promise ends. *)
Inductive Settled : Type :=
  | Resolved (value : JsVal)
  | Rejected (reason : JsVal).

(** The response object, with the two properties that matter here. *)
Definition response (status : Z) (body : JsVal) : JsVal :=
  JObj [("data", body); ("status", JNum status)].

(** The statuses the client accepts: those in [200, 300). *)
Definition validateStatus (status : Z) : bool :=
  ((200 <=? status) && (status <? 300))%Z.

(** The client resolves with the response for an accepted status and rejects
    otherwise; the rejection carries the response when there is one. *)
Definition settle_request (n : NetResult) : Settled :=
  match n with
  | Reply status body =>
      if validateStatus status
      then Resolved (response status body)
      else Rejected (JObj [("message", JStr ("Request failed with status code " +:+ pretty status));
                           ("response", response status body)])
  | NoReply => Rejected (JObj [("message", JStr "Network Error")])
  end.

(** The error object an exception raised by the runtime is caught as. *)
Definition exn_value (e : Exn) : JsVal :=
  match e with
  | TypeError => JObj [("name", JStr "TypeError")]
  end.

(** ** Notifications *)

Definition toast_success (content : JsVal) : M () := fun w =>
  (Ok (), mkWorld (cache w) (toasts w ++ [ToastSuccess content]) (sent w)).

Definition toast_error (content : JsVal) : M () := fun w =>
  (Ok (), mkWorld (cache w) (toasts w ++ [ToastError content]) (sent w)).

(** ** The query cache *)

(** The entry under a key is fresh when it holds a result that was fetched
    successfully and has not been invalidated since. *)
Definition fresh (k : QueryKey) (c : QueryCache) : bool :=
  match c !! k with
  | Some q =>
      match q_status q with
      | QSuccess => negb (q_isInvalidated q)
      | _ => false
      end
  | None => false
  end.

(** The query client, as far as the hooks use it. Invalidation belongs to the
    library; all that is assumed of it is that an invalidated key is no longer
    fresh. The call only marks the cache: the fetch the library then starts
    for a list that is mounted is that list's own step, [query_fetch], and is
    not part of the handler that invalidates. *)
Class QueryClient : Type := {
  invalidate : QueryKey -> QueryCache -> QueryCache;
  invalidate_not_fresh : forall k c, fresh k (invalidate k c) = false
}.

(** A client that drops the invalidated entries, as the specification's
    glossary reads invalidation. *)
Program Definition discarding_client : QueryClient := {|
  invalidate k c := filter (fun kv => ~ k `prefix_of` kv.1) c
|}.
Next Obligation.
  intros k c. unfold fresh.
  destruct (filter _ c !! k) as [q|] eqn:E; [|done].
  apply map_lookup_filter_Some in E as [_ Hn]. by destruct Hn.
Qed.

Definition mark_invalidated (q : Query) : Query :=
  mkQuery (q_status q) (q_data q) true.

(** A client that keeps the invalidated entries, data included, and flags
    them: what the library does. *)
Program Definition flagging_client : QueryClient := {|
  invalidate k c := map_imap (fun k' q => Some (if decide (k `prefix_of` k') then mark_invalidated q else q)) c
|}.
Next Obligation.
  intros k c. unfold fresh. rewrite map_lookup_imap.
  destruct (c !! k) as [q|]; simpl; [|done].
  rewrite decide_True by done. simpl. by destruct (q_status q).
Qed.

(** [queryClient.invalidateQueries({ queryKey })], as to the cache. *)
Definition invalidateQueries `{QueryClient} (k : QueryKey) : M () := fun w =>
  (Ok (), mkWorld (invalidate k (cache w)) (toasts w) (sent w)).

(** ** Queries *)

(** The options [useQuery] is given. The query function is split at its
    [await]: what it sends, and what it returns from the response. *)
Record QueryOptions : Type := mkQueryOptions {
  queryKey : QueryKey;
  queryFn_send : M ();
  queryFn_resume : JsVal -> Outcome JsVal
}.

(** What [useQuery] reports. *)
Record QueryResult : Type := mkQueryResult {
  qr_isLoading : bool;
  qr_isError : bool;
  qr_data : JsVal
}.

Definition useQuery (o : QueryOptions) (w : World) : QueryResult :=
  match cache w !! queryKey o with
  | None => mkQueryResult true false JUndefined
  | Some q =>
      mkQueryResult
        (match q_status q with QLoading => true | _ => false end)
        (match q_status q with QError => true | _ => false end)
        (q_data q)
  end.

Definition set_query (k : QueryKey) (f : option Query -> Query) : M () := fun w =>
  (Ok (), mkWorld (<[k := f (cache w !! k)]> (cache w)) (toasts w) (sent w)).

(** Starts a fetch: the query function sends its request, and a key seen for
    the first time gets an entry in the loading state. *)
Definition query_fetch (o : QueryOptions) : M () :=
  queryFn_send o;;
  set_query (queryKey o) (fun e => default (mkQuery QLoading JUndefined false) e).

(** A read of the list by a new observer (a mount, or the window regaining
    focus) fetches whatever the cache holds: the client is created with the
    library's defaults, under which a result is stale as soon as it is
    cached. *)
Definition query_read (o : QueryOptions) : M () := query_fetch o.

(** The attempts the library makes after a failed one before it gives the
    query up, when [useQuery] is given no [retry]. *)
Definition query_retries : nat := 3.

(** Whether an attempt of the query function failed. *)
Definition fetch_failed (o : QueryOptions) (s : Settled) : bool :=
  match s with
  | Resolved value =>
      match queryFn_resume o value with
      | Ok _ => false
      | Throw _ => true
      end
  | Rejected _ => true
  end.

Fixpoint resend (k : nat) (o : QueryOptions) : M () :=
  match k with
  | 0 => mret ()
  | S k' => queryFn_send o;; resend k' o
  end.

(** The fetch ends (for a failure: once the library has given up on it).
    Success replaces the cached data; failure keeps what was there. *)
Definition query_settle (o : QueryOptions) (s : Settled) : M () :=
  let failed e :=
    mkQuery QError (from_option q_data JUndefined e) (from_option q_isInvalidated false e) in
  match s with
  | Resolved value =>
      match queryFn_resume o value with
      | Ok d => set_query (queryKey o) (fun _ => mkQuery QSuccess d false)
      | Throw _ => set_query (queryKey o) failed
      end
  | Rejected _ => set_query (queryKey o) failed
  end.

(** ** Mutations *)

Record MutationOptions : Type := mkMutationOptions {
  mutationFn : JsVal -> M ();
  onSuccess : JsVal -> M ();
  onError : JsVal -> M ()
}.

Inductive MutationStatus : Type := MIdle | MLoading | MError | MSuccess.

(** The state of the mutation a hook instance observes. *)
Record MutationState : Type := mkMutationState {
  m_status : MutationStatus;
  m_data : JsVal;
  m_error : JsVal
}.

Definition idle : MutationState := mkMutationState MIdle JUndefined JNull.
Definition loading : MutationState := mkMutationState MLoading JUndefined JNull.
Definition succeeded (d : JsVal) : MutationState := mkMutationState MSuccess d JNull.
Definition failed (e : JsVal) : MutationState := mkMutationState MError JUndefined e.

(** The failure path: [onError] runs, and whatever it raises is dropped by
    [mutate]; the mutation ends in the error state. *)
Definition mutation_rejected (o : MutationOptions) (e : JsVal) : M MutationState :=
  attempt (onError o e);; mret (failed e).

(** [mutate(variables)]: the mutation function sends its request and the
    mutation is loading. A mutation function that raises rejects at once. *)
Definition mutate_with (o : MutationOptions) (variables : JsVal) : M MutationState :=
  r ← attempt (mutationFn o variables);
  match r with
  | Ok _ => mret loading
  | Throw e => mutation_rejected o (exn_value e)
  end.

(** The request of a loading mutation ends. [onSuccess] runs on a resolved
    promise (and if it raises, the failure path is taken with what it
    raised); [onError] runs on a rejected one. There is no retry. *)
Definition mutation_settle (o : MutationOptions) (s : Settled) : M MutationState :=
  match s with
  | Resolved value =>
      r ← attempt (onSuccess o value);
      match r with
      | Ok _ => mret (succeeded value)
      | Throw e => mutation_rejected o (exn_value e)
      end
  | Rejected e => mutation_rejected o e
  end.

(** What [useMutation] returns. *)
Record MutationResult : Type := mkMutationResult {
  mutate : JsVal -> M MutationState;
  mr_isLoading : bool;
  mr_isError : bool;
  mr_isSuccess : bool;
  mr_data : JsVal;
  mr_error : JsVal
}.

Definition useMutation (o : MutationOptions) (st : MutationState) : MutationResult :=
  mkMutationResult
    (mutate_with o)
    (match m_status st with MLoading => true | _ => false end)
    (match m_status st with MError => true | _ => false end)
    (match m_status st with MSuccess => true | _ => false end)
    (m_data st)
    (m_error st).

(** ** reactQueryCustomHooks *)

Section Client.
Context `{QC : QueryClient}.

(** *** fetching / READ *)

Definition fetchTasks_options : QueryOptions := {|
  queryKey := ["tasks"];
  queryFn_send := customFetch GET "/" JUndefined;
  queryFn_resume := fun response => prop response "data"
|}.

Record FetchTasksHook : Type := mkFetchTasksHook {
  isLoading : bool;
  data : JsVal;
  isError : bool
}.

Definition useFetchTasks (w : World) : FetchTasksHook :=
  let r := useQuery fetchTasks_options w in
  {| isLoading := qr_isLoading r; data := qr_data r; isError := qr_isError r |}.

(** *** add / CREATE *)

Definition createTask_options : MutationOptions := {|
  mutationFn := fun taskTitle => customFetch POST "/" (JObj [("title", taskTitle)]);
  onSuccess := fun _ =>
    invalidateQueries ["tasks"];;
    toast_success (JStr "Task added ✅");
  onError := fun error =>
    msg ← lift (r ← prop error "response"; d ← prop r "data"; prop d "msg");
    toast_error msg
|}.

Record CreateTaskHook : Type := mkCreateTaskHook {
  createTask : JsVal -> M MutationState;
  createTaskLoading : bool
}.

Definition useCreateTask (st : MutationState) : CreateTaskHook :=
  let r := useMutation createTask_options st in
  {| createTask := mutate r; createTaskLoading := mr_isLoading r |}.

(** *** edit / UPDATE *)

Definition editTask_options : MutationOptions := {|
  mutationFn := fun variables =>
    taskId ← lift (prop variables "taskId");
    isDone ← lift (prop variables "isDone");
    path ← lift (to_string taskId);
    customFetch PATCH ("/" +:+ path) (JObj [("isDone", isDone)]);
  onSuccess := fun _ =>
    invalidateQueries ["tasks"];
  onError := fun error =>
    msg ← lift (r ← prop error "response"; d ← prop r "data"; prop d "msg");
    toast_error msg
|}.

Record EditTaskHook : Type := mkEditTaskHook {
  editTask : JsVal -> M MutationState
}.

Definition useEditTask (st : MutationState) : EditTaskHook :=
  let r := useMutation editTask_options st in
  {| editTask := mutate r |}.

(** *** remove / DELETE *)

Definition deleteTask_options : MutationOptions := {|
  mutationFn := fun taskId =>
    path ← lift (to_string taskId);
    customFetch DELETE ("/" +:+ path) JUndefined;
  onSuccess := fun _ =>
    invalidateQueries ["tasks"];
  onError := fun error =>
    msg ← lift (r ← prop error "response"; d ← prop r "data"; prop d "msg");
    toast_error msg
|}.

Record DeleteTaskHook : Type := mkDeleteTaskHook {
  deleteTask : JsVal -> M MutationState;
  deleteTaskLoading : bool
}.

Definition useDeleteTask (st : MutationState) : DeleteTaskHook :=
  let r := useMutation deleteTask_options st in
  {| deleteTask := mutate r; deleteTaskLoading := mr_isLoading r |}.

(** ** Items.jsx *)

(** What [Items] returns: a paragraph of text, or the list of [SingleItem]
    children, each with the value it is given as [key] and its [item] prop.
    The key an element ends up with is that value as a string; for a string
    it is the value itself. *)
Inductive ItemsView : Type :=
  | Paragraph (text : string)
  | ItemsList (children : list (JsVal * JsVal)).

(** [v.map(f)]: defined on arrays. *)
Definition array_map {B} (f : JsVal -> Outcome B) (v : JsVal) : Outcome (list B) :=
  match v with
  | JArr items => mapM f items
  | _ => Throw TypeError
  end.

Definition Items (w : World) : Outcome ItemsView :=
  let h := useFetchTasks w in
  if isLoading h then Ok (Paragraph "Loading...")
  else if isError h then Ok (Paragraph "There was an error Skyy! ⚠️..")
  else
    taskList ← prop (data h) "taskList";
    children ← array_map (fun item => key ← prop item "id"; Ok (key, item)) taskList;
    Ok (ItemsList children).

(** ** SingleItem.jsx *)

(** What [SingleItem] renders of its props and hooks. *)
Record SingleItemView : Type := mkSingleItemView {
  checkbox_checked : JsVal;
  text_decoration : JsVal;
  title_text : JsVal;
  button_disabled : bool
}.

Definition SingleItem (item : JsVal) (del edit : MutationState) : Outcome SingleItemView :=
  let d := useDeleteTask del in
  let e := useEditTask edit in
  checked ← prop item "isDone";
  isDone ← prop item "isDone";
  title ← prop item "title";
  Ok {| checkbox_checked := checked;
        text_decoration := js_and isDone (JStr "line-through");
        title_text := title;
        button_disabled := deleteTaskLoading d |}.

(** The checkbox's [onChange]. *)
Definition SingleItem_onChange (item : JsVal) (edit : MutationState) : M MutationState :=
  id ← lift (prop item "id");
  isDone ← lift (prop item "isDone");
  editTask (useEditTask edit) (JObj [("taskId", id); ("isDone", js_not isDone)]).

(** The button's [onClick]. *)
Definition SingleItem_onClick (item : JsVal) (del : MutationState) : M MutationState :=
  id ← lift (prop item "id");
  deleteTask (useDeleteTask del) id.

(** A mounted [SingleItem]: the mutations its two hooks observe, and the
    delete mutation as the render now on screen read it. The button's
    [disabled] is the one of that render: a change of the mutation shows
    only once the component has rendered again. *)
Record ItemState : Type := mkItemState {
  del_mutation : MutationState;
  edit_mutation : MutationState;
  rendered_del : MutationState
}.

(** What can happen to a mounted item: the user acts on one of its controls,
    a request of one of its mutations ends, or the component renders again. *)
Inductive ItemEvent : Type :=
  | ChangeCheckbox
  | ClickDelete
  | EditSettles (n : NetResult)
  | DeleteSettles (n : NetResult)
  | Rerender.

(** An event handler runs to its end or to an uncaught exception; the hook's
    state is replaced when the handler returns one. *)
Definition handle (m : M MutationState) (old : MutationState) (w : World)
  : MutationState * World :=
  match m w with
  | (Ok st, w') => (st, w')
  | (Throw _, w') => (old, w')
  end.

(** The controls are those of the render on screen; a disabled button
    dispatches no click. *)
Definition item_step (item : JsVal) (ev : ItemEvent) (st : ItemState) (w : World)
  : ItemState * World :=
  match ev with
  | ChangeCheckbox =>
      match SingleItem item (rendered_del st) (edit_mutation st) with
      | Ok _ =>
          let '(e, w') := handle (SingleItem_onChange item (edit_mutation st)) (edit_mutation st) w in
          (mkItemState (del_mutation st) e (rendered_del st), w')
      | Throw _ => (st, w)
      end
  | ClickDelete =>
      match SingleItem item (rendered_del st) (edit_mutation st) with
      | Ok view =>
          if button_disabled view then (st, w)
          else
            let '(d, w') := handle (SingleItem_onClick item (rendered_del st)) (del_mutation st) w in
            (mkItemState d (edit_mutation st) (rendered_del st), w')
      | Throw _ => (st, w)
      end
  | EditSettles n =>
      let '(e, w') := handle (mutation_settle editTask_options (settle_request n)) (edit_mutation st) w in
      (mkItemState (del_mutation st) e (rendered_del st), w')
  | DeleteSettles n =>
      let '(d, w') := handle (mutation_settle deleteTask_options (settle_request n)) (del_mutation st) w in
      (mkItemState d (edit_mutation st) (rendered_del st), w')
  | Rerender => (mkItemState (del_mutation st) (edit_mutation st) (del_mutation st), w)
  end.

Fixpoint item_run (item : JsVal) (evs : list ItemEvent) (st : ItemState) (w : World)
  : ItemState * World :=
  match evs with
  | [] => (st, w)
  | ev :: rest => let '(st', w') := item_step item ev st w in item_run item rest st' w'
  end.

(** ** One operation from call to settlement *)

Inductive Mutation : Type := Create | Update | Remove.

Definition options_of (op : Mutation) : MutationOptions :=
  match op with
  | Create => createTask_options
  | Update => editTask_options
  | Remove => deleteTask_options
  end.

(** [mutate(variables)], then the network's answer [n] to the request sent. *)
Definition perform (o : MutationOptions) (variables : JsVal) (n : NetResult) : M MutationState :=
  st ← mutate_with o variables;
  match m_status st with
  | MLoading => mutation_settle o (settle_request n)
  | _ => mret st
  end.

(** The list query from a mount to the end of its fetch, every attempt being
    answered by [n]: a failed attempt is sent again [query_retries] times
    before the query is in error. *)
Definition list_tasks (n : NetResult) : M () :=
  query_fetch fetchTasks_options;;
  (if fetch_failed fetchTasks_options (settle_request n)
   then resend query_retries fetchTasks_options
   else mret ());;
  query_settle fetchTasks_options (settle_request n).

End Client.

Definition empty_world : World := mkWorld ∅ [] [].

(** ** Reading the handlers *)

(** The value of [error.response.data.msg]. *)
Definition error_msg (error : JsVal) : Outcome JsVal :=
  r ← prop error "response"; d ← prop r "data"; prop d "msg".

(** The request an operation's mutation function sends for its variables, or
    the exception it raises before sending any. *)
Definition request_for (op : Mutation) (variables : JsVal) : Outcome Request :=
  match op with
  | Create => Ok (mkRequest POST "/" (JObj [("title", variables)]))
  | Update =>
      taskId ← prop variables "taskId";
      isDone ← prop variables "isDone";
      path ← to_string taskId;
      Ok (mkRequest PATCH ("/" +:+ path) (JObj [("isDone", isDone)]))
  | Remove =>
      path ← to_string variables;
      Ok (mkRequest DELETE ("/" +:+ path) JUndefined)
  end.

Definition send (r : Request) (w : World) : World :=
  mkWorld (cache w) (toasts w) (sent w ++ [r]).

Definition toast_content (t : Toast) : JsVal :=
  match t with
  | ToastSuccess c | ToastError c => c
  end.

(** What the user can read: the text [Items] renders when it renders a
    paragraph, and the notifications. *)
Definition visible_messages (w : World) : list JsVal :=
  match Items w with
  | Ok (Paragraph text) => [JStr text]
  | _ => []
  end ++ map toast_content (toasts w).

(** The shape of a task in a payload: an object with a string [id], a
    string [title] and a boolean [isDone]. *)
Definition is_task (v : JsVal) : bool :=
  match v with
  | JObj fields =>
      match assoc "id" fields, assoc "title" fields, assoc "isDone" fields with
      | Some (JStr _), Some (JStr _), Some (JBool _) => true
      | _, _, _ => false
      end
  | _ => false
  end.

(** A property of a value that has it. *)
Definition field (k : string) (v : JsVal) : JsVal :=
  match prop v k with
  | Ok x => x
  | Throw _ => JUndefined
  end.

#[global] Instance Method_eq_dec : EqDecision Method.
Proof. solve_decision. Defined.

(** The DELETE requests of a log. *)
Definition deletes (rs : list Request) : list Request :=
  filter (fun r => req_method r = DELETE) rs.


(** A hook exposes an observable of the state it reads when its return value
    determines it. *)
Definition exposes {S R V : Type} (hook : S -> R) (observable : S -> V) : Prop :=
  forall s s', hook s = hook s' -> observable s = observable s'.

Definition nullish (v : JsVal) : bool :=
  match v with
  | JUndefined | JNull => true
  | _ => false
  end.

(** The PATCH a change of an item's checkbox sends and the DELETE a click on
    its button sends; none when the item's [id] cannot be printed. *)
Definition item_patch (item : JsVal) : list Request :=
  match to_string (field "id" item) with
  | Ok path => [mkRequest PATCH ("/" +:+ path) (JObj [("isDone", js_not (field "isDone" item))])]
  | Throw _ => []
  end.

Definition item_delete (item : JsVal) : list Request :=
  match to_string (field "id" item) with
  | Ok path => [mkRequest DELETE ("/" +:+ path) JUndefined]
  | Throw _ => []
  end.

(** The requests of a log that are not fetches of the list. *)
Definition own_requests (rs : list Request) : list Request :=
  filter (fun r => req_method r <> GET) rs.

(** An element of a payload that has a string [id]. *)
Definition has_string_id (v : JsVal) : bool :=
  match field "id" v with
  | JStr _ => true
  | _ => false
  end.

(** The PATCH requests and the POST requests of a log. *)
Definition patches (rs : list Request) : list Request :=
  filter (fun r => req_method r = PATCH) rs.

Definition posts (rs : list Request) : list Request :=
  filter (fun r => req_method r = POST) rs.

Definition is_change (ev : ItemEvent) : bool :=
  match ev with
  | ChangeCheckbox => true
  | _ => false
  end.

(** ** Form, as the README gives it (Form V1) *)

Section FormV1.
Context `{QC : QueryClient}.

(** The component's state: the text of the input ([useState('')]) and the
    mutation its [useMutation] observes. *)
Record FormState : Type := mkFormState {
  newItemName : JsVal;
  form_mutation : MutationState
}.

Definition Form_initial : FormState := mkFormState (JStr "") idle.

Definition setNewItemName (value : JsVal) (st : FormState) : FormState :=
  mkFormState value (form_mutation st).

Definition Form_mutationFn (taskTitle : JsVal) : M () :=
  customFetch POST "/" (JObj [("title", taskTitle)]).

(** [onSuccess], which also resets the input; the component's state is
    passed through it. *)
Definition Form_onSuccess (st : FormState) : M FormState :=
  invalidateQueries ["tasks"];;
  toast_success (JStr "Task added ✅");;
  mret (setNewItemName (JStr "") st).

Definition Form_onError (error : JsVal) : M () :=
  msg ← lift (r ← prop error "response"; d ← prop r "data"; prop d "msg");
  toast_error msg.

(** What [Form] renders of its state. *)
Record FormView : Type := mkFormView {
  input_value : JsVal;
  submit_disabled : bool
}.

Definition Form (st : FormState) : FormView :=
  {| input_value := newItemName st;
     submit_disabled := match m_status (form_mutation st) with MLoading => true | _ => false end |}.

(** [handleSubmit], after [preventDefault]: [createTask(newItemName)]. *)
Definition Form_handleSubmit (st : FormState) : M FormState :=
  r ← attempt (Form_mutationFn (newItemName st));
  match r with
  | Ok _ => mret (mkFormState (newItemName st) loading)
  | Throw e =>
      attempt (Form_onError (exn_value e));;
      mret (mkFormState (newItemName st) (failed (exn_value e)))
  end.

(** The request of the form's mutation ends; the same life cycle as
    [mutation_settle], with the component's state passed through. *)
Definition Form_settle (s : Settled) (st : FormState) : M FormState :=
  let rejected e st :=
    attempt (Form_onError e);; mret (mkFormState (newItemName st) (failed e)) in
  match s with
  | Resolved value =>
      r ← attempt (Form_onSuccess st);
      match r with
      | Ok st' => mret (mkFormState (newItemName st') (succeeded value))
      | Throw e => rejected (exn_value e) st
      end
  | Rejected e => rejected e st
  end.

Inductive FormEvent : Type :=
  | TypeText (value : string)
  | Submit
  | CreateSettles (n : NetResult).

(** The input's [onChange] stores what was typed. A form whose submit button
    is disabled is not submitted. *)
Definition Form_step (ev : FormEvent) (st : FormState) (w : World) : FormState * World :=
  match ev with
  | TypeText value => (setNewItemName (JStr value) st, w)
  | Submit =>
      if submit_disabled (Form st) then (st, w)
      else
        match Form_handleSubmit st w with
        | (Ok st', w') => (st', w')
        | (Throw _, w') => (st, w')
        end
  | CreateSettles n =>
      match Form_settle (settle_request n) st w with
      | (Ok st', w') => (st', w')
      | (Throw _, w') => (st, w')
      end
  end.



End FormV1.

(** ** Sample data *)

Definition walk_the_dog : JsVal :=
  JObj [("id", JStr "a1"); ("title", JStr "walk the dog"); ("isDone", JBool false)].

Definition title_required : JsVal := JObj [("msg", JStr "title required")].

(** A world whose cache holds a fetched list of one task. *)
Definition one_task_world : World :=
  exec (list_tasks (Reply 200 (JObj [("taskList", JArr [walk_the_dog])]))) empty_world.

(** * Properties *)

(** ** Values *)

Example to_string_num : to_string (JNum (-42)) = Ok "-42".
Proof. reflexivity. Qed.

Example to_string_arr :
  to_string (JArr [JNum 1; JNull; JStr "a"; JArr [JBool true; JNum 0]]) = Ok "1,,a,true,0".
Proof. reflexivity. Qed.

Example not_of_missing_flag : js_not (field "isDone" (JObj [])) = JBool true.
Proof. reflexivity. Qed.

Section Properties.
Context `{QC : QueryClient}.

(** ** The three error handlers *)

Lemma onError_run (op : Mutation) (error : JsVal) (w : World) :
  onError (options_of op) error w =
  match error_msg error with
  | Ok msg => (Ok (), mkWorld (cache w) (toasts w ++ [ToastError msg]) (sent w))
  | Throw e => (Throw e, w)
  end.
Proof.
  destruct op; cbn; unfold error_msg;
    destruct (prop error "response" ≫= _) as [msg|e]; reflexivity.
Qed.

(** The rejection of a response the client refuses carries the body. *)
Lemma error_msg_of_reply (status : Z) (fields : list (string * JsVal)) :
  validateStatus status = false ->
  settle_request (Reply status (JObj fields)) =
    Rejected (JObj [("message", JStr ("Request failed with status code " +:+ pretty status));
                    ("response", response status (JObj fields))]) /\
  error_msg (JObj [("message", JStr ("Request failed with status code " +:+ pretty status));
                   ("response", response status (JObj fields))])
    = Ok (default JUndefined (assoc "msg" fields)).
Proof.
  intros Hs. unfold settle_request. rewrite Hs. split; reflexivity.
Qed.

Lemma rejected_run (op : Mutation) (error : JsVal) (w : World) :
  mutation_rejected (options_of op) error w =
  match error_msg error with
  | Ok msg => (Ok (failed error), mkWorld (cache w) (toasts w ++ [ToastError msg]) (sent w))
  | Throw _ => (Ok (failed error), w)
  end.
Proof.
  unfold mutation_rejected, attempt, mbind, M_bind, mret, M_ret.
  rewrite onError_run. destruct (error_msg error); reflexivity.
Qed.

Lemma onSuccess_run (op : Mutation) (value : JsVal) (w : World) :
  onSuccess (options_of op) value w =
  (Ok (), mkWorld (invalidate ["tasks"] (cache w))
                  (toasts w ++ match op with
                               | Create => [ToastSuccess (JStr "Task added ✅")]
                               | _ => []
                               end)
                  (sent w)).
Proof.
  destruct op; cbn; rewrite ?app_nil_r; reflexivity.
Qed.

Lemma settle_resolved_run (op : Mutation) (value : JsVal) (w : World) :
  mutation_settle (options_of op) (Resolved value) w =
  (Ok (succeeded value), snd (onSuccess (options_of op) value w)).
Proof.
  unfold mutation_settle, attempt, mbind, M_bind, mret, M_ret.
  rewrite onSuccess_run. reflexivity.
Qed.

(** ** Dispatch and settlement *)

Lemma mutationFn_run (op : Mutation) (variables : JsVal) (w : World) :
  mutationFn (options_of op) variables w =
  match request_for op variables with
  | Ok r => (Ok (), send r w)
  | Throw e => (Throw e, w)
  end.
Proof.
  destruct op; cbn [options_of mutationFn createTask_options editTask_options
                    deleteTask_options request_for];
    unfold mbind, M_bind, Outcome_bind, lift; [reflexivity| |].
  - destruct (prop variables "taskId") as [taskId|]; [|reflexivity].
    destruct (prop variables "isDone") as [isDone|]; [|reflexivity].
    destruct (to_string taskId); reflexivity.
  - destruct (to_string variables); reflexivity.
Qed.

Lemma mutate_run (op : Mutation) (variables : JsVal) (w : World) :
  mutate_with (options_of op) variables w =
  match request_for op variables with
  | Ok r => (Ok loading, send r w)
  | Throw e => (Ok (failed (exn_value e)), w)
  end.
Proof.
  unfold mutate_with, attempt, mbind, M_bind.
  rewrite mutationFn_run.
  destruct (request_for op variables) as [r|e]; [reflexivity|].
  rewrite rejected_run. destruct e; reflexivity.
Qed.

Lemma perform_run (op : Mutation) (variables : JsVal) (n : NetResult) (w : World) :
  perform (options_of op) variables n w =
  match request_for op variables with
  | Ok r => mutation_settle (options_of op) (settle_request n) (send r w)
  | Throw e => (Ok (failed (exn_value e)), w)
  end.
Proof.
  unfold perform, mbind, M_bind. rewrite mutate_run.
  destruct (request_for op variables) as [r|e]; reflexivity.
Qed.

Lemma settle_run (op : Mutation) (s : Settled) (w : World) :
  mutation_settle (options_of op) s w =
  match s with
  | Resolved value =>
      (Ok (succeeded value),
       mkWorld (invalidate ["tasks"] (cache w))
               (toasts w ++ match op with
                            | Create => [ToastSuccess (JStr "Task added ✅")]
                            | _ => []
                            end)
               (sent w))
  | Rejected error =>
      match error_msg error with
      | Ok msg => (Ok (failed error), mkWorld (cache w) (toasts w ++ [ToastError msg]) (sent w))
      | Throw _ => (Ok (failed error), w)
      end
  end.
Proof.
  destruct s as [value|error].
  - rewrite settle_resolved_run, onSuccess_run. reflexivity.
  - apply rejected_run.
Qed.

(** A settled mutation succeeded exactly when its promise resolved. *)
Lemma settle_status (op : Mutation) (s : Settled) (w : World) (st : MutationState) :
  outcome (mutation_settle (options_of op) s) w = Ok st ->
  m_status st = MSuccess ->
  exists value, s = Resolved value.
Proof.
  unfold outcome. rewrite settle_run. destruct s as [value|error]; [eauto|].
  destruct (error_msg error); cbn; intros [= <-]; discriminate.
Qed.

(** ** Create *)

(** C1. A create that fails with a server-reported error (a response whose
    status the client refuses and whose JSON body has a [msg] string) leaves
    the query cache as it was, the entry under ["tasks"] included, and shows
    the server's [msg] unchanged in an error notification. *)
Theorem create_failure_keeps_cache_and_shows_msg
    (title : JsVal) (status : Z) (fields : list (string * JsVal)) (m : string) (w : World) :
  validateStatus status = false ->
  assoc "msg" fields = Some (JStr m) ->
  let w' := exec (perform createTask_options title (Reply status (JObj fields))) w in
  cache w' = cache w /\
  cache w' !! ["tasks"] = cache w !! ["tasks"] /\
  toasts w' = toasts w ++ [ToastError (JStr m)].
Proof.
  intros Hs Hm w'. subst w'. unfold exec.
  rewrite (perform_run Create). cbn [request_for].
  rewrite (settle_run Create).
  destruct (error_msg_of_reply status fields Hs) as [-> ->].
  rewrite Hm. cbn. auto.
Qed.

(** C5. For every title, creating sends exactly one request, a POST to the
    collection root with body [{ title }]; when the response is accepted the
    cached list is invalidated and a success notification is shown; when it
    is refused with a [msg] in its body, that message is shown. *)
Theorem create_posts_title_then_reports (title : string) (n : NetResult) (w : World) :
  let w' := exec (perform createTask_options (JStr title) n) w in
  sent w' = sent w ++ [mkRequest POST "/" (JObj [("title", JStr title)])] /\
  (forall status body,
     n = Reply status body -> validateStatus status = true ->
     cache w' = invalidate ["tasks"] (cache w) /\
     fresh ["tasks"] (cache w') = false /\
     toasts w' = toasts w ++ [ToastSuccess (JStr "Task added ✅")]) /\
  (forall status fields msg,
     n = Reply status (JObj fields) -> validateStatus status = false ->
     assoc "msg" fields = Some msg ->
     toasts w' = toasts w ++ [ToastError msg]).
Proof.
  intros w'. subst w'. unfold exec.
  rewrite (perform_run Create). cbn [request_for].
  rewrite (settle_run Create).
  split; [|split].
  - destruct (settle_request n) as [value|error]; [reflexivity|].
    destruct (error_msg error); reflexivity.
  - intros status body -> Hs. unfold settle_request. rewrite Hs. cbn.
    auto using invalidate_not_fresh.
  - intros status fields msg -> Hs Hm.
    destruct (error_msg_of_reply status fields Hs) as [-> ->].
    rewrite Hm. reflexivity.
Qed.

(** ** Failures *)

Lemma query_failed_view (error : JsVal) (w : World) :
  let w' := exec (query_settle fetchTasks_options (Rejected error)) w in
  isError (useFetchTasks w') = true /\
  Items w' = Ok (Paragraph "There was an error Skyy! ⚠️..") /\
  toasts w' = toasts w.
Proof.
  cbn. unfold Items, useFetchTasks, useQuery. cbn.
  rewrite lookup_insert_eq. cbn. auto.
Qed.

(** C3, as amended. A create, update or delete whose request is refused with
    a JSON body holding a [msg] string shows exactly that string in an error
    notification when the request settles; a list fetch that fails shows the
    fixed text of [Items] and no notification, whatever the body says. *)
Theorem failures_shown_by_operation
    (status : Z) (fields : list (string * JsVal)) (m : string) (w : World) :
  validateStatus status = false ->
  assoc "msg" fields = Some (JStr m) ->
  let s := settle_request (Reply status (JObj fields)) in
  (forall op, toasts (exec (mutation_settle (options_of op) s) w)
              = toasts w ++ [ToastError (JStr m)]) /\
  Items (exec (query_settle fetchTasks_options s) w)
    = Ok (Paragraph "There was an error Skyy! ⚠️..") /\
  toasts (exec (query_settle fetchTasks_options s) w) = toasts w.
Proof.
  intros Hs Hm s. subst s.
  destruct (error_msg_of_reply status fields Hs) as [-> Hmsg].
  split.
  - intros op. unfold exec. rewrite settle_run, Hmsg, Hm. reflexivity.
  - split; apply query_failed_view.
Qed.

(** C8. Each of the three error handlers shows the value of
    [error.response.data.msg] and nothing guards the access: for a rejection
    that carries a response with a JSON body holding [msg] the access yields
    that value, and for a rejection without a response it raises a TypeError
    and nothing is shown. *)
Theorem error_handlers_read_msg_unguarded (op : Mutation) (w : World) :
  (forall error,
     onError (options_of op) error w =
     match error_msg error with
     | Ok msg => (Ok (), mkWorld (cache w) (toasts w ++ [ToastError msg]) (sent w))
     | Throw e => (Throw e, w)
     end) /\
  (forall status fields v,
     validateStatus status = false -> assoc "msg" fields = Some v ->
     exists error,
       settle_request (Reply status (JObj fields)) = Rejected error /\
       error_msg error = Ok v /\
       onError (options_of op) error w
         = (Ok (), mkWorld (cache w) (toasts w ++ [ToastError v]) (sent w))) /\
  (forall error,
     prop error "response" = Ok JUndefined ->
     error_msg error = Throw TypeError /\
     onError (options_of op) error w = (Throw TypeError, w)) /\
  (exists error,
     settle_request NoReply = Rejected error /\ prop error "response" = Ok JUndefined).
Proof.
  split; [|split; [|split]].
  - intros error. apply onError_run.
  - intros status fields v Hs Hv.
    destruct (error_msg_of_reply status fields Hs) as [Hr Hmsg].
    eexists. split; [exact Hr|]. rewrite onError_run, Hmsg, Hv. auto.
  - intros error Hr.
    assert (error_msg error = Throw TypeError) as He
      by (unfold error_msg; rewrite Hr; reflexivity).
    rewrite onError_run, He. auto.
  - eexists. split; reflexivity.
Qed.

(** ** The list *)

Lemma query_resolved_view (status : Z) (body : JsVal) (w : World) :
  let w' := exec (query_settle fetchTasks_options (Resolved (response status body))) w in
  useFetchTasks w' = {| isLoading := false; data := body; isError := false |} /\
  toasts w' = toasts w /\ sent w' = sent w.
Proof.
  cbn. unfold useFetchTasks, useQuery. cbn. rewrite lookup_insert_eq. cbn. auto.
Qed.

Lemma Items_ready (w : World) :
  isLoading (useFetchTasks w) = false ->
  isError (useFetchTasks w) = false ->
  Items w =
    (taskList ← prop (data (useFetchTasks w)) "taskList";
     children ← array_map (fun item => key ← prop item "id"; Ok (key, item)) taskList;
     Ok (ItemsList children)).
Proof. intros Hl He. unfold Items. rewrite Hl, He. reflexivity. Qed.

Lemma children_of_tasks (items : list JsVal) :
  forallb is_task items = true ->
  mapM (fun item => key ← prop item "id"; Ok (key, item)) items
  = Ok (map (fun item => (field "id" item, item)) items).
Proof.
  induction items as [|item rest IH]; [reflexivity|].
  cbn [forallb]. intros [Ht Hr]%andb_prop.
  cbn [mapM map]. rewrite (IH Hr).
  destruct item; try discriminate. reflexivity.
Qed.

(** C7. When the list fetch succeeds and the payload's [taskList] is the
    empty array, the query is neither loading nor in error, its data is the
    payload, and [Items] renders a list with no item; from a cache without a
    fresh result the operation has sent one GET to the collection root. *)
Theorem empty_collection_renders_empty_list
    (status : Z) (fields : list (string * JsVal)) (w : World) :
  validateStatus status = true ->
  assoc "taskList" fields = Some (JArr []) ->
  let n := Reply status (JObj fields) in
  let w' := exec (query_settle fetchTasks_options (settle_request n)) w in
  (useFetchTasks w' = {| isLoading := false; data := JObj fields; isError := false |} /\
   Items w' = Ok (ItemsList [])) /\
  (fresh ["tasks"] (cache w) = false ->
   Items (exec (list_tasks n) w) = Ok (ItemsList []) /\
   isError (useFetchTasks (exec (list_tasks n) w)) = false /\
   sent (exec (list_tasks n) w) = sent w ++ [mkRequest GET "/" JUndefined]).
Proof.
  intros Hs Ht n w'. subst n w'.
  assert (forall w0, let w1 := exec (query_settle fetchTasks_options
                       (settle_request (Reply status (JObj fields)))) w0 in
            useFetchTasks w1 = {| isLoading := false; data := JObj fields; isError := false |} /\
            Items w1 = Ok (ItemsList []) /\ sent w1 = sent w0) as Hsettle.
  { intros w0. unfold settle_request. rewrite Hs.
    destruct (query_resolved_view status (JObj fields) w0) as (Hv & _ & Hsent).
    cbn zeta. split; [exact Hv|]. split; [|exact Hsent].
    rewrite Items_ready by (rewrite Hv; reflexivity).
    rewrite Hv. cbn. rewrite Ht. reflexivity. }
  split.
  - destruct (Hsettle w) as (Hv & Hi & _). auto.
  - intros Hf.
    assert (exec (list_tasks (Reply status (JObj fields))) w
            = exec (query_settle fetchTasks_options (settle_request (Reply status (JObj fields))))
                   (exec (query_fetch fetchTasks_options) w)) as ->.
    { unfold exec at 1, list_tasks, settle_request. rewrite Hs. reflexivity. }
    destruct (Hsettle (exec (query_fetch fetchTasks_options) w)) as (Hv & Hi & Hsent).
    rewrite Hv, Hi, Hsent. auto.
Qed.

(** C10. [Items] reads [data.taskList] only when the query is neither
    loading nor in error: in those two states it returns its paragraph
    whatever [data] is, and otherwise its result is the dereference; there,
    for a payload whose [taskList] is an array of tasks, the dereference and
    the [map] are defined and give one child per task, keyed by its [id]. *)
Theorem items_reads_data_only_when_ready (w : World) :
  (isLoading (useFetchTasks w) = true -> Items w = Ok (Paragraph "Loading...")) /\
  (isLoading (useFetchTasks w) = false -> isError (useFetchTasks w) = true ->
   Items w = Ok (Paragraph "There was an error Skyy! ⚠️..")) /\
  (isLoading (useFetchTasks w) = false -> isError (useFetchTasks w) = false ->
   Items w =
     (taskList ← prop (data (useFetchTasks w)) "taskList";
      children ← array_map (fun item => key ← prop item "id"; Ok (key, item)) taskList;
      Ok (ItemsList children)) /\
   forall fields items,
     data (useFetchTasks w) = JObj fields ->
     assoc "taskList" fields = Some (JArr items) ->
     forallb is_task items = true ->
     Items w = Ok (ItemsList (map (fun item => (field "id" item, item)) items))).
Proof.
  split; [|split].
  - intros Hl. unfold Items. rewrite Hl. reflexivity.
  - intros Hl He. unfold Items. rewrite Hl, He. reflexivity.
  - intros Hl He. split; [apply Items_ready; assumption|].
    intros fields items Hd Ht Hall.
    rewrite Items_ready, Hd by assumption. cbn. rewrite Ht. cbn.
    rewrite children_of_tasks by assumption. reflexivity.
Qed.

(** ** A mounted item *)

Lemma prop_field (v : JsVal) (k : string) :
  prop v k = if nullish v then Throw TypeError else Ok (field k v).
Proof. destruct v; reflexivity. Qed.

Lemma SingleItem_run (item : JsVal) (del edit : MutationState) :
  SingleItem item del edit =
  if nullish item then Throw TypeError
  else Ok {| checkbox_checked := field "isDone" item;
             text_decoration := js_and (field "isDone" item) (JStr "line-through");
             title_text := field "title" item;
             button_disabled := deleteTaskLoading (useDeleteTask del) |}.
Proof. destruct item; reflexivity. Qed.

Lemma onChange_run (item : JsVal) (edit : MutationState) (w : World) :
  SingleItem_onChange item edit w =
  if nullish item then (Throw TypeError, w)
  else match to_string (field "id" item) with
       | Ok path =>
           (Ok loading,
            send (mkRequest PATCH ("/" +:+ path)
                            (JObj [("isDone", js_not (field "isDone" item))])) w)
       | Throw e => (Ok (failed (exn_value e)), w)
       end.
Proof.
  unfold SingleItem_onChange, mbind, M_bind, lift. rewrite !prop_field.
  destruct (nullish item); [reflexivity|].
  cbn [editTask useEditTask mutate useMutation].
  change editTask_options with (options_of Update). rewrite mutate_run.
  cbn. destruct (to_string (field "id" item)); reflexivity.
Qed.

Lemma onClick_run (item : JsVal) (del : MutationState) (w : World) :
  SingleItem_onClick item del w =
  if nullish item then (Throw TypeError, w)
  else match to_string (field "id" item) with
       | Ok path => (Ok loading, send (mkRequest DELETE ("/" +:+ path) JUndefined) w)
       | Throw e => (Ok (failed (exn_value e)), w)
       end.
Proof.
  unfold SingleItem_onClick, mbind, M_bind, lift. rewrite prop_field.
  destruct (nullish item); [reflexivity|].
  cbn [deleteTask useDeleteTask mutate useMutation].
  change deleteTask_options with (options_of Remove). rewrite mutate_run.
  cbn. destruct (to_string (field "id" item)); reflexivity.
Qed.

Lemma settle_sent (op : Mutation) (s : Settled) (w : World) :
  sent (mutation_settle (options_of op) s w).2 = sent w.
Proof.
  rewrite settle_run. destruct s as [value|error]; [reflexivity|].
  destruct (error_msg error); reflexivity.
Qed.

Lemma handle_settle_sent (op : Mutation) (s : Settled) (old : MutationState) (w : World) :
  sent (handle (mutation_settle (options_of op) s) old w).2 = sent w.
Proof.
  unfold handle. pose proof (settle_sent op s w) as Hs.
  destruct (mutation_settle (options_of op) s w) as [[st|e] w']; exact Hs.
Qed.

(** What one event adds to the log of requests. *)
Lemma item_step_sent (item : JsVal) (ev : ItemEvent) (st : ItemState) (w : World) :
  sent (item_step item ev st w).2 =
  sent w ++
  match ev with
  | ChangeCheckbox => if nullish item then [] else item_patch item
  | ClickDelete =>
      if nullish item then []
      else if deleteTaskLoading (useDeleteTask (rendered_del st)) then []
           else item_delete item
  | EditSettles _ | DeleteSettles _ | Rerender => []
  end.
Proof.
  destruct ev as [| |n|n|]; unfold item_step, item_patch, item_delete.
  - rewrite SingleItem_run. unfold handle. rewrite onChange_run.
    destruct (nullish item); [cbn; by rewrite app_nil_r|].
    destruct (to_string (field "id" item)); cbn; by rewrite ?app_nil_r.
  - rewrite SingleItem_run. unfold handle. rewrite onClick_run.
    destruct (nullish item); [cbn; by rewrite app_nil_r|].
    cbn [button_disabled].
    destruct (deleteTaskLoading _); [cbn; by rewrite app_nil_r|].
    destruct (to_string (field "id" item)); cbn; by rewrite ?app_nil_r.
  - pose proof (handle_settle_sent Update (settle_request n) (edit_mutation st) w) as Hs.
    cbn [options_of] in Hs.
    destruct (handle _ _ w) as [e w']. cbn in *. by rewrite app_nil_r.
  - pose proof (handle_settle_sent Remove (settle_request n) (del_mutation st) w) as Hs.
    cbn [options_of] in Hs.
    destruct (handle _ _ w) as [e w']. cbn in *. by rewrite app_nil_r.
  - cbn. by rewrite app_nil_r.
Qed.



(** ** Update *)

(** C6. For every identifier and boolean, updating sends exactly one request,
    a PATCH to [/id] whose body is [{ isDone }] with that boolean; when the
    response is accepted the cached list is invalidated; and in a mounted
    item of a task the checkbox sends the negation of the task's [isDone],
    every PATCH the item sends being that one. *)
Theorem edit_patches_isDone_negated_by_caller
    (id : string) (isDone : bool) (n : NetResult) (w : World) :
  let w' := exec (perform editTask_options
                    (JObj [("taskId", JStr id); ("isDone", JBool isDone)]) n) w in
  let toggled := mkRequest PATCH ("/" +:+ id) (JObj [("isDone", JBool (negb isDone))]) in
  sent w' = sent w ++ [mkRequest PATCH ("/" +:+ id) (JObj [("isDone", JBool isDone)])] /\
  (forall status body,
     n = Reply status body -> validateStatus status = true ->
     cache w' = invalidate ["tasks"] (cache w) /\ fresh ["tasks"] (cache w') = false) /\
  (forall fields st w0,
     assoc "id" fields = Some (JStr id) ->
     assoc "isDone" fields = Some (JBool isDone) ->
     sent (item_step (JObj fields) ChangeCheckbox st w0).2 = sent w0 ++ [toggled] /\
     forall ev, exists new,
       sent (item_step (JObj fields) ev st w0).2 = sent w0 ++ new /\
       Forall (fun r => req_method r = PATCH -> r = toggled) new).
Proof.
  intros w' toggled. subst w' toggled. unfold exec.
  change editTask_options with (options_of Update). rewrite perform_run.
  assert (request_for Update (JObj [("taskId", JStr id); ("isDone", JBool isDone)])
          = Ok (mkRequest PATCH ("/" +:+ id) (JObj [("isDone", JBool isDone)]))) as ->
    by reflexivity.
  rewrite settle_run.
  split; [|split].
  - destruct (settle_request n) as [value|error]; [reflexivity|].
    destruct (error_msg error); reflexivity.
  - intros status body -> Hs. unfold settle_request. rewrite Hs. cbn.
    auto using invalidate_not_fresh.
  - intros fields st w0 Hid Hdone.
    assert (field "id" (JObj fields) = JStr id) as Hfid
      by (unfold field; cbn; rewrite Hid; reflexivity).
    assert (field "isDone" (JObj fields) = JBool isDone) as Hfd
      by (unfold field; cbn; rewrite Hdone; reflexivity).
    split.
    + rewrite item_step_sent. cbn [nullish]. unfold item_patch.
      rewrite Hfid, Hfd. reflexivity.
    + intros ev. eexists. split; [apply item_step_sent|].
      cbn [nullish]. unfold item_patch, item_delete. rewrite Hfid, Hfd.
      cbn [to_string js_not truthy].
      destruct ev as [| |n'|n'|]; [| |constructor..].
      * repeat constructor.
      * destruct (deleteTaskLoading _); repeat constructor. discriminate.
Qed.

(** ** What the hooks return *)

(** C4, as amended. [useFetchTasks] exposes the loading flag, the error flag
    and the data of the list query. [useCreateTask] and [useDeleteTask]
    expose the loading flag of their mutation and, besides the function that
    triggers it, nothing else: their return value is the same for any two
    mutation states with the same loading flag. [useEditTask] returns the
    same value in every mutation state. *)
Theorem hooks_expose_what_they_return :
  (exposes useFetchTasks (fun w => qr_isLoading (useQuery fetchTasks_options w)) /\
   exposes useFetchTasks (fun w => qr_isError (useQuery fetchTasks_options w)) /\
   exposes useFetchTasks (fun w => qr_data (useQuery fetchTasks_options w))) /\
  (exposes useCreateTask (fun st => mr_isLoading (useMutation createTask_options st)) /\
   forall st st',
     mr_isLoading (useMutation createTask_options st)
       = mr_isLoading (useMutation createTask_options st') ->
     useCreateTask st = useCreateTask st') /\
  (exposes useDeleteTask (fun st => mr_isLoading (useMutation deleteTask_options st)) /\
   forall st st',
     mr_isLoading (useMutation deleteTask_options st)
       = mr_isLoading (useMutation deleteTask_options st') ->
     useDeleteTask st = useDeleteTask st') /\
  (forall st st', useEditTask st = useEditTask st').
Proof.
  unfold exposes. repeat split.
  - intros s s' Heq. exact (f_equal isLoading Heq).
  - intros s s' Heq. exact (f_equal isError Heq).
  - intros s s' Heq. exact (f_equal data Heq).
  - intros s s' Heq. exact (f_equal createTaskLoading Heq).
  - intros st st' Heq. unfold useCreateTask. cbn in *. by rewrite Heq.
  - intros s s' Heq. exact (f_equal deleteTaskLoading Heq).
  - intros st st' Heq. unfold useDeleteTask. cbn in *. by rewrite Heq.
Qed.

End Properties.

(** ** All three mutations *)

Lemma flagging_keeps_entry (k : list string) (c : gmap (list string) Query) :
  invalidate (QueryClient := flagging_client) k c !! k = mark_invalidated <$> c !! k.
Proof.
  cbn. rewrite map_lookup_imap. destruct (c !! k) as [q|]; [|reflexivity].
  cbn. rewrite decide_True by done. reflexivity.
Qed.

(** C2, as amended. No mutation writes the cache while its request is in
    flight, and when it has settled the cache is either as it was or has had
    ["tasks"] invalidated, nothing else; a mutation that completes
    successfully has invalidated ["tasks"], so that entry is no longer fresh
    and the next read of the list goes to the backend; a mutation whose
    request was sent and accepted does complete successfully; and under the
    library's invalidation the entry is not discarded: it keeps its status
    and its data and is only flagged. *)
Theorem mutation_success_invalidates_tasks `{QC : QueryClient}
    (op : Mutation) (variables : JsVal) (n : NetResult) (w : World) :
  let w' := exec (perform (options_of op) variables n) w in
  cache (exec (mutate_with (options_of op) variables) w) = cache w /\
  (cache w' = cache w \/ cache w' = invalidate ["tasks"] (cache w)) /\
  (forall st,
     outcome (perform (options_of op) variables n) w = Ok st ->
     m_status st = MSuccess ->
     cache w' = invalidate ["tasks"] (cache w) /\
     fresh ["tasks"] (cache w') = false /\
     sent (exec (query_read fetchTasks_options) w') = sent w' ++ [mkRequest GET "/" JUndefined]) /\
  (forall r status body,
     request_for op variables = Ok r ->
     n = Reply status body -> validateStatus status = true ->
     outcome (perform (options_of op) variables n) w = Ok (succeeded (response status body))) /\
  (forall st,
     outcome (perform (options_of (QC := flagging_client) op) variables n) w = Ok st ->
     m_status st = MSuccess ->
     cache (exec (perform (options_of (QC := flagging_client) op) variables n) w) !! ["tasks"]
       = mark_invalidated <$> cache w !! ["tasks"]).
Proof.
  assert (forall (C : QueryClient) st,
            outcome (perform (options_of (QC := C) op) variables n) w = Ok st ->
            m_status st = MSuccess ->
            cache (exec (perform (options_of (QC := C) op) variables n) w)
              = invalidate (QueryClient := C) ["tasks"] (cache w)) as Hinv.
  { intros C st. unfold exec, outcome. rewrite perform_run.
    destruct (request_for op variables) as [r|e]; cbn [snd fst].
    - rewrite settle_run. destruct (settle_request n) as [value|error]; [reflexivity|].
      destruct (error_msg error); cbn [snd fst]; intros [= <-]; discriminate.
    - intros [= <-]. discriminate. }
  intros w'. subst w'.
  split; [|split; [|split; [|split]]].
  - unfold exec. rewrite mutate_run.
    destruct (request_for op variables); reflexivity.
  - unfold exec. rewrite perform_run.
    destruct (request_for op variables) as [r|e]; cbn [snd]; [|left; reflexivity].
    rewrite settle_run. destruct (settle_request n) as [value|error];
      [right; reflexivity|].
    destruct (error_msg error); left; reflexivity.
  - intros st Hst Hok. rewrite (Hinv QC st Hst Hok).
    split; [reflexivity|]. split; [apply invalidate_not_fresh|].
    reflexivity.
  - intros r status body Hr -> Hs. unfold outcome. rewrite perform_run, Hr, settle_run.
    unfold settle_request. rewrite Hs. reflexivity.
  - intros st Hst Hok. rewrite (Hinv flagging_client st Hst Hok).
    apply flagging_keeps_entry.
Qed.


(** * Further properties of the hooks and components *)

Section Coverage.
Context `{QC : QueryClient}.

(** ** Delete *)

(** X1. Deleting the task of a string identifier sends exactly one DELETE,
    without body, to the path made of a slash and the identifier; an
    accepted response invalidates ["tasks"] and shows nothing; a refused one
    that carries a [msg] shows it as an error and leaves the cache alone. *)
Theorem delete_sends_one_request_then_reports (id : string) (n : NetResult) (w : World) :
  let w' := exec (perform deleteTask_options (JStr id) n) w in
  deletes (sent w') = deletes (sent w) ++ [mkRequest DELETE ("/" +:+ id) JUndefined] /\
  (forall status body,
     n = Reply status body -> validateStatus status = true ->
     cache w' = invalidate ["tasks"] (cache w) /\ toasts w' = toasts w) /\
  (forall status fields msg,
     n = Reply status (JObj fields) -> validateStatus status = false ->
     assoc "msg" fields = Some msg ->
     cache w' = cache w /\ toasts w' = toasts w ++ [ToastError msg]).
Proof.
  intros w'. subst w'. unfold exec.
  change deleteTask_options with (options_of Remove).
  rewrite perform_run. cbn [request_for to_string mbind Outcome_bind].
  rewrite settle_run.
  split; [|split].
  - assert (forall w0, sent w0 = sent (send (mkRequest DELETE ("/" +:+ id) JUndefined) w) ->
              deletes (sent w0)
              = deletes (sent w) ++ [mkRequest DELETE ("/" +:+ id) JUndefined]) as Hd.
    { intros w0 ->. unfold deletes. cbn [send sent]. rewrite filter_app. reflexivity. }
    destruct (settle_request n) as [value|error]; [by apply Hd|].
    destruct (error_msg error); by apply Hd.
  - intros status body -> Hs. unfold settle_request. rewrite Hs. cbn.
    by rewrite app_nil_r.
  - intros status fields msg -> Hs Hm.
    destruct (error_msg_of_reply status fields Hs) as [-> ->].
    rewrite Hm. cbn. auto.
Qed.

(** ** Failures without a usable message *)

(** X2. When the network gives no response, a mutation shows no notification
    and leaves the cache as it was, and it ends in the error state: the
    handler's read of [error.response.data] raises and the exception is
    dropped. *)
Theorem transport_failure_is_silent (op : Mutation) (variables : JsVal) (w : World) :
  let r := perform (options_of op) variables NoReply w in
  toasts r.2 = toasts w /\
  cache r.2 = cache w /\
  exists st, r.1 = Ok st /\ m_status st = MError.
Proof.
  cbn zeta. rewrite perform_run.
  destruct (request_for op variables) as [req|e].
  - rewrite settle_run. cbn. eauto.
  - cbn. eauto.
Qed.

(** X3. For a refused response, what the error notification shows is
    [body.msg] for whatever the body is: the property when the body is an
    object that has it, [undefined] when the body is an object without it or
    a string, number, boolean or array, and no notification at all when the
    body is [null] or [undefined]. The cache is untouched in every case. *)
Theorem refused_response_toast (op : Mutation) (status : Z) (body : JsVal) (w : World) :
  validateStatus status = false ->
  let w' := exec (mutation_settle (options_of op) (settle_request (Reply status body))) w in
  toasts w' = toasts w ++ (if nullish body then [] else [ToastError (field "msg" body)]) /\
  cache w' = cache w /\
  sent w' = sent w.
Proof.
  intros Hs w'. subst w'. unfold exec, settle_request. rewrite Hs, settle_run.
  unfold error_msg. cbn.
  rewrite (prop_field body "msg").
  destruct (nullish body); cbn; by rewrite ?app_nil_r.
Qed.

(** ** Update with any variables *)

(** X4. [editTask] called with [undefined] or [null] sends nothing, shows
    nothing and ends in the error state. Called with any other value it
    reads [taskId] and [isDone] from it, a missing property being
    [undefined]: for a string [taskId] it sends one PATCH to a slash and that
    string, with [isDone] as body; without a [taskId] the PATCH goes to
    [/undefined]; and for a [taskId] that is an object with a property named
    [toString] the path cannot be built, so nothing is sent and the mutation
    ends in the error state. *)
Theorem edit_with_any_variables (variables : JsVal) (w : World) :
  (nullish variables = true ->
   mutate_with editTask_options variables w = (Ok (failed (exn_value TypeError)), w)) /\
  (forall id,
     field "taskId" variables = JStr id ->
     mutate_with editTask_options variables w =
       (Ok loading,
        send (mkRequest PATCH ("/" +:+ id) (JObj [("isDone", field "isDone" variables)])) w)) /\
  (nullish variables = false ->
   field "taskId" variables = JUndefined ->
   mutate_with editTask_options variables w =
     (Ok loading,
      send (mkRequest PATCH "/undefined" (JObj [("isDone", field "isDone" variables)])) w)) /\
  (forall fields own,
     field "taskId" variables = JObj fields ->
     assoc "toString" fields = Some own ->
     mutate_with editTask_options variables w = (Ok (failed (exn_value TypeError)), w)).
Proof.
  change editTask_options with (options_of Update).
  rewrite mutate_run. cbn [request_for]. rewrite !prop_field.
  split; [|split; [|split]].
  - intros ->. reflexivity.
  - intros id Hid. destruct (nullish variables) eqn:Hn.
    + destruct variables; discriminate.
    + cbn. rewrite Hid. reflexivity.
  - intros -> Hid. cbn. rewrite Hid. reflexivity.
  - intros fields own Hid Hown. destruct (nullish variables) eqn:Hn; [reflexivity|].
    cbn. rewrite Hid. cbn. rewrite Hown. reflexivity.
Qed.

(** ** What a mutation can do to the logs *)

(** X5. From call to settlement a mutation only appends to the log of
    requests and to the notifications: fetches of the list apart, at most
    one request, and at most one notification, which is shown only if a
    request was sent. *)
Theorem mutation_effects_bounded
    (op : Mutation) (variables : JsVal) (n : NetResult) (w : World) :
  let w' := exec (perform (options_of op) variables n) w in
  exists rs ts,
    own_requests (sent w') = own_requests (sent w) ++ rs /\
    toasts w' = toasts w ++ ts /\
    length rs <= 1 /\ length ts <= 1 /\ length ts <= length rs.
Proof.
  cbn zeta. unfold exec. rewrite perform_run.
  destruct (request_for op variables) as [req|e] eqn:Hreq.
  - rewrite settle_run.
    exists (own_requests [req]).
    assert (length (own_requests [req]) = 1) as Hone.
    { assert (req_method req <> GET) as Hget.
      { destruct op; cbn in Hreq.
        - injection Hreq as <-. discriminate.
        - destruct (prop variables "taskId") as [t|]; [|discriminate].
          destruct (prop variables "isDone") as [d|]; [|discriminate].
          cbn in Hreq. destruct (to_string t); [|discriminate].
          injection Hreq as <-. discriminate.
        - destruct (to_string variables); [|discriminate].
          injection Hreq as <-. discriminate. }
      unfold own_requests. cbn. rewrite decide_True by exact Hget. reflexivity. }
    assert (forall w0, sent w0 = sent (send req w) ->
              own_requests (sent w0) = own_requests (sent w) ++ own_requests [req]) as Hd.
    { intros w0 ->. unfold own_requests. cbn [send sent]. by rewrite filter_app. }
    destruct (settle_request n) as [value|error].
    + eexists. split; [by apply Hd|]. split; [reflexivity|].
      rewrite Hone. destruct op; cbn; lia.
    + destruct (error_msg error).
      * eexists. split; [by apply Hd|]. split; [reflexivity|].
        rewrite Hone. cbn. lia.
      * exists []. split; [by apply Hd|]. rewrite app_nil_r.
        split; [reflexivity|]. rewrite Hone. cbn. lia.
  - exists [], []. cbn. rewrite !app_nil_r. repeat split; lia.
Qed.

(** ** A mounted item over time *)

Lemma item_step_click (item : JsVal) (st : ItemState) (w : World) :
  item_step item ClickDelete st w =
  if nullish item || deleteTaskLoading (useDeleteTask (rendered_del st))
  then (st, w)
  else match to_string (field "id" item) with
       | Ok path =>
           (mkItemState loading (edit_mutation st) (rendered_del st),
            send (mkRequest DELETE ("/" +:+ path) JUndefined) w)
       | Throw e =>
           (mkItemState (failed (exn_value e)) (edit_mutation st) (rendered_del st), w)
       end.
Proof.
  unfold item_step. rewrite SingleItem_run. unfold handle. rewrite onClick_run.
  destruct (nullish item); [reflexivity|]. cbn [button_disabled orb].
  destruct (deleteTaskLoading _); [reflexivity|].
  destruct (to_string (field "id" item)); reflexivity.
Qed.

Lemma settled_not_loading (op : Mutation) (s : Settled) (old : MutationState) (w : World) :
  m_status (handle (mutation_settle (options_of op) s) old w).1 <> MLoading.
Proof.
  unfold handle. rewrite settle_run. destruct s as [value|error]; [discriminate|].
  destruct (error_msg error); discriminate.
Qed.

Lemma string_id_not_nullish (item : JsVal) (id : string) :
  field "id" item = JStr id -> nullish item = false.
Proof. destruct item; try reflexivity; discriminate. Qed.

(** X6. The checkbox of a mounted item is never blocked and always asks for
    the same thing: for an item with a string [id], over any sequence of
    events, each change sends one PATCH to a slash and that [id], carrying
    the negation of the [isDone] the item was rendered with, whatever was
    sent or settled before, and nothing else sends a PATCH. *)
Theorem every_toggle_sends_the_same_patch
    (item : JsVal) (id : string) (evs : list ItemEvent) (st : ItemState) (w : World) :
  field "id" item = JStr id ->
  patches (sent (item_run item evs st w).2) =
  patches (sent w) ++
  replicate (length (List.filter is_change evs))
            (mkRequest PATCH ("/" +:+ id)
                       (JObj [("isDone", js_not (field "isDone" item))])).
Proof.
  intros Hid. pose proof (string_id_not_nullish item id Hid) as Hitem. revert st w.
  induction evs as [|ev rest IH]; intros st w; [cbn; by rewrite app_nil_r|].
  cbn [item_run].
  pose proof (item_step_sent item ev st w) as Hsent.
  destruct (item_step item ev st w) as [st1 w1]. cbn [snd] in Hsent.
  rewrite IH, Hsent, Hitem. unfold patches, item_patch, item_delete.
  rewrite filter_app, <- app_assoc, Hid. f_equal.
  destruct ev as [| |n|n|]; cbn [List.filter is_change length replicate]; try reflexivity.
  destruct (deleteTaskLoading _); reflexivity.
Qed.

Lemma clicks_blocked (item : JsVal) (j : nat) (st : ItemState) (w : World) :
  deleteTaskLoading (useDeleteTask (rendered_del st)) = true ->
  item_run item (replicate j ClickDelete) st w = (st, w).
Proof.
  intros Hr. induction j as [|j IH]; [reflexivity|].
  cbn [replicate item_run]. rewrite item_step_click, Hr, orb_true_r. exact IH.
Qed.

Lemma clicks_enabled (item : JsVal) (id : string) (k : nat) (st : ItemState) (w : World) :
  field "id" item = JStr id ->
  deleteTaskLoading (useDeleteTask (rendered_del st)) = false ->
  item_run item (replicate (S k) ClickDelete) st w =
  (mkItemState loading (edit_mutation st) (rendered_del st),
   mkWorld (cache w) (toasts w)
           (sent w ++ replicate (S k) (mkRequest DELETE ("/" +:+ id) JUndefined))).
Proof.
  intros Hid Hr. pose proof (string_id_not_nullish item id Hid) as Hitem.
  revert st w Hr. induction k as [|k IH]; intros st w Hr.
  - cbn [replicate item_run]. rewrite item_step_click, Hitem, Hr, Hid. reflexivity.
  - change (replicate (S (S k)) ClickDelete) with (ClickDelete :: replicate (S k) ClickDelete).
    cbn [item_run]. rewrite item_step_click, Hitem, Hr, Hid. cbn [orb to_string].
    rewrite IH by exact Hr. cbn [edit_mutation rendered_del send cache toasts sent].
    rewrite <- app_assoc. reflexivity.
Qed.

(** X7. The delete button is blocked by what was last rendered, not by the
    mutation itself: on an item with a string [id] rendered with a delete
    mutation that is not loading, every click made before the component
    renders again sends a DELETE, and once it has rendered again further
    clicks send nothing. *)
Theorem clicks_before_render_all_send
    (item : JsVal) (id : string) (k j : nat) (st : ItemState) (w : World) :
  field "id" item = JStr id ->
  deleteTaskLoading (useDeleteTask (rendered_del st)) = false ->
  sent (item_run item (replicate (S k) ClickDelete ++ Rerender :: replicate j ClickDelete)
                 st w).2
  = sent w ++ replicate (S k) (mkRequest DELETE ("/" +:+ id) JUndefined).
Proof.
  intros Hid Hr.
  assert (forall evs1 evs2 st0 w0,
            item_run item (evs1 ++ evs2) st0 w0
            = item_run item evs2 (item_run item evs1 st0 w0).1 (item_run item evs1 st0 w0).2)
    as Happ.
  { induction evs1 as [|ev evs1 IH]; intros evs2 st0 w0; [reflexivity|].
    cbn [app item_run]. destruct (item_step item ev st0 w0) as [st1 w1]. apply IH. }
  rewrite Happ, (clicks_enabled item id k st w Hid Hr). cbn [fst snd item_run item_step].
  rewrite clicks_blocked by reflexivity. reflexivity.
Qed.

Lemma item_step_delete_settles (item : JsVal) (n : NetResult) (st : ItemState) (w : World) :
  m_status (del_mutation (item_step item (DeleteSettles n) st w).1) <> MLoading /\
  rendered_del (item_step item (DeleteSettles n) st w).1 = rendered_del st.
Proof.
  unfold item_step.
  pose proof (settled_not_loading Remove (settle_request n) (del_mutation st) w) as Hs.
  cbn [options_of] in Hs.
  destruct (handle (mutation_settle deleteTask_options (settle_request n))
                   (del_mutation st) w) as [d w'].
  cbn in *. auto.
Qed.

(** X8. The settlement of an item's delete, accepted or not, does not by
    itself change the button on screen; once the component has rendered
    again the button is enabled, and for an item with a string [id] a click
    sends the DELETE once more. *)
Theorem delete_settlement_reenables_button
    (item : JsVal) (id : string) (n : NetResult) (st : ItemState) (w : World) :
  field "id" item = JStr id ->
  let settled := item_step item (DeleteSettles n) st w in
  let r := item_run item [DeleteSettles n; Rerender] st w in
  rendered_del settled.1 = rendered_del st /\
  SingleItem item (rendered_del r.1) (edit_mutation r.1) =
    Ok {| checkbox_checked := field "isDone" item;
          text_decoration := js_and (field "isDone" item) (JStr "line-through");
          title_text := field "title" item;
          button_disabled := false |} /\
  sent (item_step item ClickDelete r.1 r.2).2
    = sent r.2 ++ [mkRequest DELETE ("/" +:+ id) JUndefined].
Proof.
  intros Hid. cbv zeta. pose proof (string_id_not_nullish item id Hid) as Hitem.
  destruct (item_step_delete_settles item n st w) as [Hs Hren].
  split; [exact Hren|].
  cbn [item_run]. destruct (item_step item (DeleteSettles n) st w) as [st1 w1].
  change (item_step item Rerender st1 w1)
    with (mkItemState (del_mutation st1) (edit_mutation st1) (del_mutation st1), w1).
  cbn [fst snd rendered_del edit_mutation] in *.
  assert (deleteTaskLoading (useDeleteTask (del_mutation st1)) = false) as Hl.
  { cbn. destruct (m_status (del_mutation st1)); try reflexivity. by destruct Hs. }
  split.
  - rewrite SingleItem_run, Hitem, Hl. reflexivity.
  - rewrite item_step_sent, Hitem. cbn [rendered_del]. rewrite Hl.
    unfold item_delete. rewrite Hid. reflexivity.
Qed.

(** ** The list over any payload *)

Lemma children_of_items (items : list JsVal) :
  mapM (fun item => key ← prop item "id"; Ok (key, item)) items
  = if existsb nullish items then Throw TypeError
    else Ok (map (fun item => (field "id" item, item)) items).
Proof.
  induction items as [|item rest IH]; [reflexivity|].
  cbn [mapM existsb map]. rewrite IH, prop_field.
  destruct (nullish item); [reflexivity|]. cbn.
  destruct (existsb nullish rest); reflexivity.
Qed.

Lemma string_ids_not_nullish (items : list JsVal) :
  forallb has_string_id items = true -> existsb nullish items = false.
Proof.
  induction items as [|item rest IH]; [reflexivity|].
  cbn [forallb existsb]. intros [Hi Hr]%andb_prop. rewrite (IH Hr), orb_false_r.
  destruct item; try reflexivity; discriminate.
Qed.

(** X9. Once the query is neither loading nor in error, [Items] raises a
    TypeError when [data] is [undefined] or [null], when [data.taskList] is
    not an array, and when an element of it is [undefined] or [null]; for
    an array whose elements all have a string [id], whatever else they
    hold, it renders one child per element, in order, keyed by that [id]. *)
Theorem items_over_any_payload (w : World) :
  isLoading (useFetchTasks w) = false ->
  isError (useFetchTasks w) = false ->
  (nullish (data (useFetchTasks w)) = true -> Items w = Throw TypeError) /\
  (nullish (data (useFetchTasks w)) = false ->
   (forall items, field "taskList" (data (useFetchTasks w)) <> JArr items) ->
   Items w = Throw TypeError) /\
  (forall items,
     field "taskList" (data (useFetchTasks w)) = JArr items ->
     (existsb nullish items = true -> Items w = Throw TypeError) /\
     (forallb has_string_id items = true ->
      Items w = Ok (ItemsList (map (fun item => (field "id" item, item)) items)))).
Proof.
  intros Hl He. rewrite Items_ready by assumption. rewrite prop_field.
  set (d := data (useFetchTasks w)). clearbody d.
  split; [|split].
  - intros ->. reflexivity.
  - intros -> Hna. cbn [mbind Outcome_bind array_map].
    destruct (field "taskList" d) as [| | | | |items|]; try reflexivity.
    by destruct (Hna items).
  - intros items Ht.
    assert (nullish d = false) as -> by (destruct d; try reflexivity; discriminate).
    cbn [mbind Outcome_bind]. rewrite Ht. cbn [array_map].
    rewrite children_of_items. split.
    + intros ->. reflexivity.
    + intros Hs. rewrite (string_ids_not_nullish items Hs). reflexivity.
Qed.

(** ** The list query from mount to settlement *)

Lemma resend_run (k : nat) (w : World) :
  resend k fetchTasks_options w
  = (Ok (), mkWorld (cache w) (toasts w) (sent w ++ replicate k (mkRequest GET "/" JUndefined))).
Proof.
  revert w. induction k as [|k IH]; intros w.
  - cbn. rewrite app_nil_r. by destruct w.
  - cbn [resend]. unfold mbind, M_bind. cbn [queryFn_send fetchTasks_options customFetch].
    rewrite IH. cbn. rewrite <- app_assoc. reflexivity.
Qed.

Lemma list_tasks_run (n : NetResult) (w : World) :
  list_tasks n w =
  query_settle fetchTasks_options (settle_request n)
    (mkWorld (<[["tasks"] := default (mkQuery QLoading JUndefined false) (cache w !! ["tasks"])]>
                (cache w))
             (toasts w)
             (sent w ++ replicate (if fetch_failed fetchTasks_options (settle_request n)
                                   then 4 else 1) (mkRequest GET "/" JUndefined))).
Proof.
  unfold list_tasks, mbind, M_bind.
  change (query_fetch fetchTasks_options w)
    with (Ok (), mkWorld (<[["tasks"] := default (mkQuery QLoading JUndefined false)
                                                 (cache w !! ["tasks"])]> (cache w))
                         (toasts w) (sent w ++ [mkRequest GET "/" JUndefined])).
  cbn iota. destruct (fetch_failed fetchTasks_options (settle_request n)).
  - rewrite resend_run. cbn [cache toasts sent]. rewrite <- app_assoc. reflexivity.
  - reflexivity.
Qed.

(** X10. [useFetchTasks] gives [useQuery] no [retry], so a fetch of the list
    that is refused or gets no response is sent again three times, four GET
    requests in all, before the query is in error; [Items] then shows its
    fixed text, no notification is shown, and the data cached before stays.
    An accepted fetch sends one GET and its payload replaces the data,
    whatever was cached. *)
Theorem list_fetch_retried_on_failure (n : NetResult) (w : World) :
  let w' := exec (list_tasks n) w in
  (match n with
   | Reply status _ => validateStatus status = false
   | NoReply => True
   end ->
   sent w' = sent w ++ replicate 4 (mkRequest GET "/" JUndefined) /\
   isLoading (useFetchTasks w') = false /\
   isError (useFetchTasks w') = true /\
   data (useFetchTasks w') = data (useFetchTasks w) /\
   Items w' = Ok (Paragraph "There was an error Skyy! ⚠️..") /\
   toasts w' = toasts w) /\
  (forall status body,
     n = Reply status body -> validateStatus status = true ->
     sent w' = sent w ++ [mkRequest GET "/" JUndefined] /\
     useFetchTasks w' = {| isLoading := false; data := body; isError := false |}).
Proof.
  cbn zeta. unfold exec. rewrite list_tasks_run. split.
  - intros Hn.
    assert (exists error, settle_request n = Rejected error) as [error ->].
    { destruct n as [status body|]; cbn; [rewrite Hn|]; eauto. }
    cbn. unfold Items, useFetchTasks, useQuery. cbn.
    rewrite !lookup_insert_eq. cbn.
    repeat split. destruct (cache w !! ["tasks"]); reflexivity.
  - intros status body -> Hs. unfold settle_request. rewrite Hs.
    cbn. unfold useFetchTasks, useQuery. cbn. rewrite lookup_insert_eq. cbn. auto.
Qed.

(** ** Form V1 *)

Lemma Form_handleSubmit_run (st : FormState) (w : World) :
  Form_handleSubmit st w =
  (Ok (mkFormState (newItemName st) loading),
   send (mkRequest POST "/" (JObj [("title", newItemName st)])) w).
Proof. reflexivity. Qed.

Lemma Form_settle_run (s : Settled) (st : FormState) (w : World) :
  Form_settle s st w =
  (Ok (mkFormState (match s with
                    | Resolved _ => JStr ""
                    | Rejected _ => newItemName st
                    end)
                   (match s with
                    | Resolved value => succeeded value
                    | Rejected error => failed error
                    end)),
   (mutation_settle createTask_options s w).2).
Proof.
  change createTask_options with (options_of Create). rewrite settle_run.
  destruct s as [value|error]; [reflexivity|].
  unfold Form_settle, attempt, mbind, M_bind, mret, M_ret.
  change (Form_onError error w) with (onError (options_of Create) error w).
  rewrite onError_run. destruct (error_msg error); reflexivity.
Qed.

(** X11. The inline mutation of Form V1 and [useCreateTask] do the same to
    the cache, the notifications and the log of requests, on submit and on
    settlement, and end in the same mutation state; Form V1 differs only in
    what it does to its input. *)
Theorem form_v1_matches_useCreateTask (s : Settled) (st : FormState) (w : World) :
  (Form_handleSubmit st w).2
    = (createTask (useCreateTask (form_mutation st)) (newItemName st) w).2 /\
  (st' ← (Form_handleSubmit st w).1; Ok (form_mutation st'))
    = (createTask (useCreateTask (form_mutation st)) (newItemName st) w).1 /\
  (Form_settle s st w).2 = (mutation_settle createTask_options s w).2 /\
  (st' ← (Form_settle s st w).1; Ok (form_mutation st'))
    = (mutation_settle createTask_options s w).1.
Proof.
  rewrite Form_handleSubmit_run, Form_settle_run.
  cbn [createTask useCreateTask mutate useMutation].
  change createTask_options with (options_of Create).
  rewrite mutate_run, settle_run. cbn [request_for fst snd].
  repeat split.
  destruct s as [value|error]; [reflexivity|].
  destruct (error_msg error); reflexivity.
Qed.

(** X12. Form V1 empties its input exactly when the create is accepted, and
    then whatever was typed while the request was in flight is gone too; a
    refused create or one without response leaves the input as it is. *)
Theorem form_clears_input_only_on_success (n : NetResult) (st : FormState) (w : World) :
  newItemName (Form_step (CreateSettles n) st w).1 =
  match n with
  | Reply status _ => if validateStatus status then JStr "" else newItemName st
  | NoReply => newItemName st
  end.
Proof.
  unfold Form_step. rewrite Form_settle_run. cbn [fst].
  destruct n as [status body|]; [|reflexivity].
  unfold settle_request. destruct (validateStatus status); reflexivity.
Qed.


End Coverage.

(** * The properties at concrete inputs *)

(** A create refused with status 400 and a [msg], over a cached list of
    one task. *)
Lemma create_failure_witness :
  let w' := exec (perform (createTask_options (QC := flagging_client)) (JStr "")
                    (Reply 400 title_required)) one_task_world in
  validateStatus 400 = false /\
  cache w' = cache one_task_world /\
  toasts w' = [ToastError (JStr "title required")].
Proof.
  cbv zeta.
  pose proof (create_failure_keeps_cache_and_shows_msg (QC := flagging_client)
                (JStr "") 400 [("msg", JStr "title required")] "title required"
                one_task_world eq_refl eq_refl) as (Hc & _ & Ht).
  split; [reflexivity|]. split; [exact Hc|exact Ht].
Defined.

(** A create accepted with status 201, by a client that drops
    invalidated entries. *)
Lemma create_success_witness :
  let w' := exec (perform (createTask_options (QC := discarding_client)) (JStr "buy milk")
                    (Reply 201 JNull)) one_task_world in
  sent w' = [mkRequest GET "/" JUndefined;
             mkRequest POST "/" (JObj [("title", JStr "buy milk")])] /\
  cache w' !! ["tasks"] = None /\
  toasts w' = [ToastSuccess (JStr "Task added ✅")].
Proof.
  cbv zeta.
  destruct (create_posts_title_then_reports (QC := discarding_client)
              "buy milk" (Reply 201 JNull) one_task_world) as (Hs & Hok & _).
  destruct (Hok 201%Z JNull eq_refl eq_refl) as (Hc & _ & Ht).
  split; [exact Hs|]. split; [|exact Ht].
  rewrite Hc. reflexivity.
Defined.

(** A delete accepted with status 200, by a client that flags
    invalidated entries: the list is fetched again on the next read. *)
Lemma delete_success_witness :
  let m := perform (options_of (QC := flagging_client) Remove) (JStr "a1") (Reply 200 JNull) in
  outcome m one_task_world = Ok (succeeded (response 200 JNull)) /\
  fresh ["tasks"] (cache one_task_world) = true /\
  fresh ["tasks"] (cache (exec m one_task_world)) = false /\
  sent (exec (query_read fetchTasks_options) (exec m one_task_world))
    = [mkRequest GET "/" JUndefined; mkRequest DELETE "/a1" JUndefined;
       mkRequest GET "/" JUndefined].
Proof.
  cbv zeta.
  destruct (mutation_success_invalidates_tasks (QC := flagging_client)
              Remove (JStr "a1") (Reply 200 JNull) one_task_world) as (_ & _ & Hok & _ & _).
  destruct (Hok (succeeded (response 200 JNull)) eq_refl eq_refl) as (_ & Hf & Hr).
  split; [reflexivity|]. split; [reflexivity|]. split; [exact Hf|exact Hr].
Defined.

(** A response refused with status 404 and a [msg], as an update and as
    a list fetch see it. *)
Lemma mutation_failure_witness :
  validateStatus 404 = false /\
  toasts (exec (mutation_settle (options_of (QC := discarding_client) Update)
                  (settle_request (Reply 404 (JObj [("msg", JStr "no task with id : a1")]))))
               one_task_world)
    = [ToastError (JStr "no task with id : a1")] /\
  Items (exec (query_settle fetchTasks_options
                 (settle_request (Reply 404 (JObj [("msg", JStr "no task with id : a1")]))))
              one_task_world)
    = Ok (Paragraph "There was an error Skyy! ⚠️..").
Proof.
  destruct (failures_shown_by_operation (QC := discarding_client)
              404 [("msg", JStr "no task with id : a1")] "no task with id : a1"
              one_task_world eq_refl eq_refl) as (Hm & Hi & _).
  split; [reflexivity|]. split; [exact (Hm Update)|exact Hi].
Defined.

(** The delete error handler on a rejection with a response and on one
    without. *)
Lemma error_handler_witness :
  onError (options_of (QC := discarding_client) Remove)
          (JObj [("message", JStr "Request failed with status code 500");
                 ("response", response 500 (JObj [("msg", JStr "boom")]))]) empty_world
    = (Ok (), mkWorld ∅ [ToastError (JStr "boom")] []) /\
  onError (options_of (QC := discarding_client) Remove)
          (JObj [("message", JStr "Network Error")]) empty_world
    = (Throw TypeError, empty_world).
Proof.
  destruct (error_handlers_read_msg_unguarded (QC := discarding_client) Remove empty_world)
    as (_ & Hreply & Hnone & _).
  split.
  - destruct (Hreply 500%Z [("msg", JStr "boom")] (JStr "boom") eq_refl eq_refl)
      as (error & Hr & _ & Hrun).
    injection Hr as <-. exact Hrun.
  - exact (proj2 (Hnone (JObj [("message", JStr "Network Error")]) eq_refl)).
Defined.

(** The first list fetch, answered with an empty [taskList]. *)
Lemma empty_collection_witness :
  let n := Reply 200 (JObj [("taskList", JArr [])]) in
  validateStatus 200 = true /\
  fresh ["tasks"] (cache empty_world) = false /\
  useFetchTasks (exec (list_tasks n) empty_world)
    = {| isLoading := false; data := JObj [("taskList", JArr [])]; isError := false |} /\
  Items (exec (list_tasks n) empty_world) = Ok (ItemsList []) /\
  sent (exec (list_tasks n) empty_world) = [mkRequest GET "/" JUndefined].
Proof.
  cbv zeta.
  destruct (empty_collection_renders_empty_list 200 [("taskList", JArr [])] empty_world
              eq_refl eq_refl) as (_ & Hlist).
  destruct (Hlist eq_refl) as (Hi & _ & Hs).
  split; [reflexivity|]. split; [reflexivity|]. split; [reflexivity|].
  split; [exact Hi|exact Hs].
Defined.

(** [Items] over a fetched list of one task, and before any fetch, where
    [data] is [undefined]. *)
Lemma items_ready_witness :
  isLoading (useFetchTasks one_task_world) = false /\
  isError (useFetchTasks one_task_world) = false /\
  forallb is_task [walk_the_dog] = true /\
  Items one_task_world = Ok (ItemsList [(JStr "a1", walk_the_dog)]) /\
  Items empty_world = Ok (Paragraph "Loading...") /\
  prop (data (useFetchTasks empty_world)) "taskList" = Throw TypeError.
Proof.
  destruct (items_reads_data_only_when_ready one_task_world) as (_ & _ & Hready).
  destruct (Hready eq_refl eq_refl) as (_ & Htasks).
  destruct (items_reads_data_only_when_ready empty_world) as (Hloading & _).
  split; [reflexivity|]. split; [reflexivity|]. split; [reflexivity|].
  split; [exact (Htasks _ [walk_the_dog] eq_refl eq_refl eq_refl)|].
  split; [exact (Hloading eq_refl)|reflexivity].
Defined.


(** An update to [true], and the checkbox of a task that is not done. *)
Lemma toggle_witness :
  sent (exec (perform (editTask_options (QC := flagging_client))
                (JObj [("taskId", JStr "a1"); ("isDone", JBool true)]) (Reply 200 JNull))
             empty_world)
    = [mkRequest PATCH "/a1" (JObj [("isDone", JBool true)])] /\
  sent (item_step (QC := flagging_client) walk_the_dog ChangeCheckbox
          (mkItemState idle idle idle) empty_world).2
    = [mkRequest PATCH "/a1" (JObj [("isDone", JBool true)])].
Proof.
  destruct (edit_patches_isDone_negated_by_caller (QC := flagging_client)
              "a1" true (Reply 200 JNull) empty_world) as (Hs & _ & _).
  destruct (edit_patches_isDone_negated_by_caller (QC := flagging_client)
              "a1" false NoReply empty_world) as (_ & _ & Hcaller).
  split; [exact Hs|].
  exact (proj1 (Hcaller [("id", JStr "a1"); ("title", JStr "walk the dog"); ("isDone", JBool false)]
                  (mkItemState idle idle idle) empty_world eq_refl eq_refl)).
Defined.

(** The create hook on an idle and on a failed mutation, the edit hook
    on an idle and on a loading one. *)
Lemma hooks_witness :
  mr_isLoading (useMutation (createTask_options (QC := flagging_client)) idle)
    = mr_isLoading (useMutation (createTask_options (QC := flagging_client)) (failed title_required)) /\
  useCreateTask (QC := flagging_client) idle
    = useCreateTask (QC := flagging_client) (failed title_required) /\
  useEditTask (QC := flagging_client) idle = useEditTask (QC := flagging_client) loading.
Proof.
  destruct (hooks_expose_what_they_return (QC := flagging_client))
    as (_ & (_ & Hcreate) & _ & Hedit).
  split; [reflexivity|].
  split; [exact (Hcreate idle (failed title_required) eq_refl)|exact (Hedit idle loading)].
Defined.

(** A delete of a string identifier accepted with status 204. *)
Lemma delete_witness :
  let w' := exec (perform (deleteTask_options (QC := flagging_client)) (JStr "a1")
                    (Reply 204 JNull)) one_task_world in
  deletes (sent w') = [mkRequest DELETE "/a1" JUndefined] /\
  toasts w' = [] /\
  fresh ["tasks"] (cache w') = false.
Proof.
  cbv zeta.
  destruct (delete_sends_one_request_then_reports (QC := flagging_client)
              "a1" (Reply 204 JNull) one_task_world) as (Hs & Hok & _).
  destruct (Hok 204%Z JNull eq_refl eq_refl) as (Hc & Ht).
  split; [exact Hs|]. split; [exact Ht|]. rewrite Hc. reflexivity.
Defined.

(** An update refused with status 500 and a body that is a page of text. *)
Lemma refused_text_body_witness :
  validateStatus 500 = false /\
  toasts (exec (mutation_settle (options_of (QC := discarding_client) Update)
                  (settle_request (Reply 500 (JStr "Internal Server Error"))))
               empty_world)
    = [ToastError JUndefined].
Proof.
  split; [reflexivity|].
  exact (proj1 (refused_response_toast (QC := discarding_client) Update 500
                  (JStr "Internal Server Error") empty_world eq_refl)).
Defined.

(** [editTask] with a string [taskId], without one, and with one that is an
    object holding a [toString]. *)
Lemma edit_variables_witness :
  let with_id := JObj [("taskId", JStr "a1"); ("isDone", JBool true)] in
  let without_id := JObj [("isDone", JBool true)] in
  let odd_id := JObj [("taskId", JObj [("toString", JStr "a1")]); ("isDone", JBool true)] in
  sent (exec (mutate_with (editTask_options (QC := flagging_client)) with_id) empty_world)
    = [mkRequest PATCH "/a1" (JObj [("isDone", JBool true)])] /\
  sent (exec (mutate_with (editTask_options (QC := flagging_client)) without_id) empty_world)
    = [mkRequest PATCH "/undefined" (JObj [("isDone", JBool true)])] /\
  mutate_with (editTask_options (QC := flagging_client)) odd_id empty_world
    = (Ok (failed (exn_value TypeError)), empty_world).
Proof.
  cbv zeta.
  split; [|split].
  - destruct (edit_with_any_variables (QC := flagging_client)
                (JObj [("taskId", JStr "a1"); ("isDone", JBool true)]) empty_world)
      as (_ & Hid & _).
    exact (f_equal (fun r => sent r.2) (Hid "a1" eq_refl)).
  - destruct (edit_with_any_variables (QC := flagging_client)
                (JObj [("isDone", JBool true)]) empty_world) as (_ & _ & Hnone & _).
    exact (f_equal (fun r => sent r.2) (Hnone eq_refl eq_refl)).
  - destruct (edit_with_any_variables (QC := flagging_client)
                (JObj [("taskId", JObj [("toString", JStr "a1")]); ("isDone", JBool true)])
                empty_world) as (_ & _ & _ & Hodd).
    exact (Hodd [("toString", JStr "a1")] (JStr "a1") eq_refl eq_refl).
Defined.

(** Two changes in a row of the checkbox of a task that is not done, then
    the first update accepted. *)
Lemma two_toggles_witness :
  field "id" walk_the_dog = JStr "a1" /\
  patches (sent (item_run (QC := flagging_client) walk_the_dog
                   [ChangeCheckbox; ChangeCheckbox; EditSettles (Reply 200 JNull)]
                   (mkItemState idle idle idle) empty_world).2)
    = [mkRequest PATCH "/a1" (JObj [("isDone", JBool true)]);
       mkRequest PATCH "/a1" (JObj [("isDone", JBool true)])].
Proof.
  split; [reflexivity|].
  exact (every_toggle_sends_the_same_patch (QC := flagging_client) walk_the_dog "a1"
           [ChangeCheckbox; ChangeCheckbox; EditSettles (Reply 200 JNull)]
           (mkItemState idle idle idle) empty_world eq_refl).
Defined.

(** Two clicks on the button of an item rendered idle, a render, two clicks
    more. *)
Lemma two_clicks_witness :
  deleteTaskLoading (useDeleteTask (QC := flagging_client)
                       (rendered_del (mkItemState idle idle idle))) = false /\
  sent (item_run (QC := flagging_client) walk_the_dog
          [ClickDelete; ClickDelete; Rerender; ClickDelete; ClickDelete]
          (mkItemState idle idle idle) empty_world).2
    = [mkRequest DELETE "/a1" JUndefined; mkRequest DELETE "/a1" JUndefined].
Proof.
  split; [reflexivity|].
  exact (clicks_before_render_all_send (QC := flagging_client) walk_the_dog "a1" 1 2
           (mkItemState idle idle idle) empty_world eq_refl eq_refl).
Defined.

(** A delete refused with status 500, a render, then a click on the button. *)
Lemma delete_retry_witness :
  let r := item_run (QC := flagging_client) walk_the_dog
             [DeleteSettles (Reply 500 (JObj [("msg", JStr "boom")])); Rerender]
             (mkItemState loading idle loading) empty_world in
  field "id" walk_the_dog = JStr "a1" /\
  toasts r.2 = [ToastError (JStr "boom")] /\
  SingleItem (QC := flagging_client) walk_the_dog (rendered_del r.1) (edit_mutation r.1)
    = Ok {| checkbox_checked := JBool false;
            text_decoration := JBool false;
            title_text := JStr "walk the dog";
            button_disabled := false |} /\
  sent (item_step (QC := flagging_client) walk_the_dog ClickDelete r.1 r.2).2
    = [mkRequest DELETE "/a1" JUndefined].
Proof.
  cbv zeta.
  destruct (delete_settlement_reenables_button (QC := flagging_client) walk_the_dog "a1"
              (Reply 500 (JObj [("msg", JStr "boom")]))
              (mkItemState loading idle loading) empty_world eq_refl)
    as (_ & Hview & Hclick).
  split; [reflexivity|]. split; [reflexivity|]. split; [exact Hview|exact Hclick].
Defined.

(** An accepted list fetch whose payload has no [taskList], one whose
    [taskList] holds a [null], and one whose elements have string ids. *)
Lemma malformed_payload_witness :
  let w1 := exec (list_tasks (Reply 200 (JObj []))) empty_world in
  let w2 := exec (list_tasks (Reply 200 (JObj [("taskList", JArr [walk_the_dog; JNull])])))
                 empty_world in
  let w3 := exec (list_tasks (Reply 200 (JObj [("taskList", JArr [JObj [("id", JStr "b2")]])])))
                 empty_world in
  isLoading (useFetchTasks w1) = false /\ isError (useFetchTasks w1) = false /\
  Items w1 = Throw TypeError /\ Items w2 = Throw TypeError /\
  Items w3 = Ok (ItemsList [(JStr "b2", JObj [("id", JStr "b2")])]).
Proof.
  cbv zeta. split; [reflexivity|]. split; [reflexivity|]. split; [|split].
  - refine (proj1 (proj2 (items_over_any_payload
             (exec (list_tasks (Reply 200 (JObj []))) empty_world) eq_refl eq_refl))
             eq_refl _).
    intros items. discriminate.
  - exact (proj1 (proj2 (proj2 (items_over_any_payload
             (exec (list_tasks (Reply 200 (JObj [("taskList", JArr [walk_the_dog; JNull])])))
                   empty_world) eq_refl eq_refl))
             [walk_the_dog; JNull] eq_refl) eq_refl).
  - exact (proj2 (proj2 (proj2 (items_over_any_payload
             (exec (list_tasks (Reply 200 (JObj [("taskList", JArr [JObj [("id", JStr "b2")]])])))
                   empty_world) eq_refl eq_refl))
             [JObj [("id", JStr "b2")]] eq_refl) eq_refl).
Defined.

(** A first fetch of the list that gets no response. *)
Lemma list_retry_witness :
  let w' := exec (list_tasks NoReply) empty_world in
  sent w' = replicate 4 (mkRequest GET "/" JUndefined) /\
  isError (useFetchTasks w') = true /\
  Items w' = Ok (Paragraph "There was an error Skyy! ⚠️..").
Proof.
  cbv zeta.
  destruct (proj1 (list_fetch_retried_on_failure NoReply empty_world) I)
    as (Hs & _ & He & _ & Hi & _).
  split; [exact Hs|]. split; [exact He|exact Hi].
Defined.


(** * Where the specification and the code part *)

Section Divergences.
#[local] Existing Instance discarding_client.

(** C2. A delete accepted with status 200 over a cached list of one task,
    with the library's invalidation: the mutation succeeded and the entry is
    invalidated, yet the list is still in the cache and [Items] still
    renders the task from it; nothing was discarded. *)
Lemma invalidation_keeps_cached_list :
  let m := perform (options_of (QC := flagging_client) Remove) (JStr "a1") (Reply 200 JNull) in
  let w' := exec m one_task_world in
  outcome m one_task_world = Ok (succeeded (response 200 JNull)) /\
  cache w' !! ["tasks"]
    = Some (mkQuery QSuccess (JObj [("taskList", JArr [walk_the_dog])]) true) /\
  data (useFetchTasks w') = JObj [("taskList", JArr [walk_the_dog])] /\
  Items w' = Ok (ItemsList [(JStr "a1", walk_the_dog)]).
Proof. cbv zeta. repeat split; reflexivity. Qed.

(** C3. A list fetch refused with status 500 and body [{ msg: "boom" }],
    the three retries included: the only thing shown is the fixed text of
    [Items]; the server's message is not. *)
Lemma list_failure_hides_server_msg :
  let w := exec (list_tasks (Reply 500 (JObj [("msg", JStr "boom")]))) empty_world in
  validateStatus 500 = false /\
  sent w = replicate 4 (mkRequest GET "/" JUndefined) /\
  isError (useFetchTasks w) = true /\
  visible_messages w = [JStr "There was an error Skyy! ⚠️.."] /\
  JStr "boom" ∉ visible_messages w.
Proof.
  cbv zeta. repeat (split; [reflexivity|]).
  intros [[=]|Hin%elem_of_nil]%elem_of_cons. exact Hin.
Qed.

(** C4. [useEditTask] returns the same value for an idle and for a loading
    mutation, so it does not expose the loading flag; [useCreateTask] returns
    the same value for an idle, a failed and a succeeded mutation, so it
    exposes neither the error nor the result. *)
Lemma mutation_hooks_hide_state :
  (useEditTask (QC := discarding_client) idle = useEditTask loading /\
   ~ exposes (useEditTask (QC := discarding_client))
       (fun st => mr_isLoading (useMutation editTask_options st))) /\
  (useCreateTask (QC := discarding_client) idle = useCreateTask (failed title_required) /\
   ~ exposes (useCreateTask (QC := discarding_client))
       (fun st => mr_isError (useMutation createTask_options st))) /\
  (useCreateTask (QC := discarding_client) idle = useCreateTask (succeeded walk_the_dog) /\
   ~ exposes (useCreateTask (QC := discarding_client))
       (fun st => mr_data (useMutation createTask_options st))).
Proof.
  repeat split.
  - intros Hex. specialize (Hex idle loading eq_refl). discriminate.
  - intros Hex. specialize (Hex idle (failed title_required) eq_refl). discriminate.
  - intros Hex. specialize (Hex idle (succeeded walk_the_dog) eq_refl). discriminate.
Qed.

End Divergences.
